(** * ModestImage: resolution-matched resampling of a large image

    A shallow embedding of [modest_image.py].  The class [ModestImage]
    keeps the full-resolution array and, before every draw, replaces the
    array handed to the renderer by a cropped and strided view of it
    ([_scale_to_res]); the last strides and bounds are cached so that an
    unchanged view is not resampled.

    The object is a record, the methods are functions that pass it
    explicitly, exceptions are a [result] type, and the [changed()]
    notification is a trace of emitted signals. *)

From Stdlib Require Import ZArith QArith Qround Qminmax Lqa Lia Bool List.
Import ListNotations.
Local Open Scope Z_scope.

(** ** Python numbers

    Axis limits and the pixel extent are numpy [float64] scalars.  A
    finite value is represented by the rational it denotes, kept in
    lowest terms: the arithmetic is exact, the rounding and the overflow
    of binary64 are left out.  The infinities and [nan] are kept, since
    the code can produce them: numpy does not raise on a zero divisor,
    it returns an infinity or [nan].  The zero of [Fin] is the positive
    zero. *)

Inductive pyfloat : Type :=
| NaN
| NInf
| PInf
| Fin (q : Q).

(** The float of an integer, exact; the [OverflowError] of an integer
    beyond the range of float64 is left out with the overflow. *)
Definition of_Z (z : Z) : pyfloat := Fin (inject_Z z).

Definition Qltb (x y : Q) : bool :=
  match (x ?= y)%Q with Lt => true | _ => false end.

Definition fadd (a b : pyfloat) : pyfloat :=
  match a, b with
  | NaN, _ | _, NaN => NaN
  | PInf, NInf | NInf, PInf => NaN
  | PInf, _ | _, PInf => PInf
  | NInf, _ | _, NInf => NInf
  | Fin x, Fin y => Fin (Qred (x + y))
  end.

Definition fsub (a b : pyfloat) : pyfloat :=
  match a, b with
  | NaN, _ | _, NaN => NaN
  | PInf, PInf | NInf, NInf => NaN
  | PInf, _ | _, NInf => PInf
  | NInf, _ | _, PInf => NInf
  | Fin x, Fin y => Fin (Qred (x - y))
  end.

(** [a / b] on float64: a zero divisor gives a signed infinity, or [nan]
    for [0 / 0]. *)
Definition fdiv (a b : pyfloat) : pyfloat :=
  match a, b with
  | NaN, _ | _, NaN => NaN
  | (PInf | NInf), (PInf | NInf) => NaN
  | Fin _, (PInf | NInf) => Fin 0
  | PInf, Fin y => if Qltb y 0 then NInf else PInf
  | NInf, Fin y => if Qltb y 0 then PInf else NInf
  | Fin x, Fin y =>
      if Qeq_bool y 0 then
        if Qltb 0 x then PInf else if Qltb x 0 then NInf else NaN
      else Fin (Qred (x / y))
  end.

(** [a * b] on float64; used to double a pixel size. *)
Definition fmul (a b : pyfloat) : pyfloat :=
  match a, b with
  | NaN, _ | _, NaN => NaN
  | Fin x, Fin y => Fin (Qred (x * y))
  | Fin x, PInf | PInf, Fin x =>
      if Qeq_bool x 0 then NaN else if Qltb x 0 then NInf else PInf
  | Fin x, NInf | NInf, Fin x =>
      if Qeq_bool x 0 then NaN else if Qltb x 0 then PInf else NInf
  | PInf, PInf | NInf, NInf => PInf
  | PInf, NInf | NInf, PInf => NInf
  end.

(** Comparisons; every comparison with [nan] is false. *)
Definition flt (a b : pyfloat) : bool :=
  match a, b with
  | NaN, _ | _, NaN => false
  | _, NInf => false
  | NInf, _ => true
  | PInf, _ => false
  | Fin _, PInf => true
  | Fin x, Fin y => Qltb x y
  end.

Definition feq (a b : pyfloat) : bool :=
  match a, b with
  | NInf, NInf | PInf, PInf => true
  | Fin x, Fin y => Qeq_bool x y
  | _, _ => false
  end.

Definition fle (a b : pyfloat) : bool := flt a b || feq a b.

Definition finite (a : pyfloat) : bool :=
  match a with Fin _ => true | _ => false end.

(** The builtins [max(a, b)] and [min(a, b)]: the first argument is kept
    unless the second compares strictly greater (smaller).  An [int]
    argument is compared, and returned, as the float of the same value. *)
Definition py_max (a b : pyfloat) : pyfloat := if flt a b then b else a.
Definition py_min (a b : pyfloat) : pyfloat := if flt b a then b else a.

(** ** Exceptions *)

Inductive exn : Type :=
| AttributeError
| ValueError
| OverflowError.

Inductive result (A : Type) : Type :=
| Ok (a : A)
| Raise (e : exn).
Arguments Ok {A} a.
Arguments Raise {A} e.

Definition bind {A B : Type} (r : result A) (k : A -> result B) : result B :=
  match r with
  | Ok a => k a
  | Raise e => Raise e
  end.

Notation "x <- c ;; k" := (bind c (fun x => k))
  (at level 61, c at next level, right associativity).

Definition is_ok {A : Type} (r : result A) : bool :=
  match r with Ok _ => true | Raise _ => false end.

(** [int(x)]: truncation toward zero; [nan] and the infinities raise. *)
Definition py_int (a : pyfloat) : result Z :=
  match a with
  | NaN => Raise ValueError
  | NInf | PInf => Raise OverflowError
  | Fin q => Ok (Z.quot (Qnum q) (Zpos (Qden q)))
  end.

(** ** Arrays and basic slicing

    A two-dimensional array is its shape and its item function; a slice
    of it is a view that reads through to the same items. *)

Record slice : Type := { start : Z; stop : Z; step : Z }.

(** Clipping of one slice index against an axis of [length] items. *)
Definition adjust (length stp i : Z) : Z :=
  if i <? 0 then
    if i + length <? 0 then (if stp <? 0 then -1 else 0) else i + length
  else if length <=? i then (if stp <? 0 then length - 1 else length)
  else i.

Definition slice_start (length : Z) (s : slice) : Z :=
  adjust length (step s) (start s).

Definition slice_stop (length : Z) (s : slice) : Z :=
  adjust length (step s) (stop s).

Definition slice_length (length : Z) (s : slice) : Z :=
  let a := slice_start length s in
  let b := slice_stop length s in
  if step s <? 0 then
    if b <? a then (a - b - 1) / (- step s) + 1 else 0
  else
    if a <? b then (b - a - 1) / step s + 1 else 0.

(** A slice step that is a float is taken by its integer part (the stride
    is "rounded down to integer step by the slicing operation"). *)
Definition as_index (s : pyfloat) : result Z := py_int s.

Section Image.

Context {V : Type}.

Record ndarray : Type := { shape : Z * Z; item : Z -> Z -> V }.

(** [A[sy, sx]] *)
Definition getitem (A : ndarray) (sy sx : slice) : result ndarray :=
  if (step sy =? 0) || (step sx =? 0) then Raise ValueError
  else
    Ok {| shape := (slice_length (fst (shape A)) sy,
                    slice_length (snd (shape A)) sx);
          item := fun i j =>
            item A (slice_start (fst (shape A)) sy + i * step sy)
                   (slice_start (snd (shape A)) sx + j * step sx) |}.

(** ** The host axes

    What [_scale_to_res] reads from [self.axes]: the two axis limits and
    [ext], the pixel size of the axes (the difference of the images of
    (1,1) and (0,0) under [transAxes]). *)

Record Axes : Type := {
  get_xlim : pyfloat * pyfloat;
  get_ylim : pyfloat * pyfloat;
  ext : pyfloat * pyfloat
}.

(** ** The image object *)

Inductive signal : Type := Changed.

Record ModestImage : Type := {
  _A : option ndarray;
  _extent : option (pyfloat * pyfloat * pyfloat * pyfloat);
  _full_res : option ndarray;
  _sx : option pyfloat;
  _sy : option pyfloat;
  _bounds : option Z * option Z * option Z * option Z;
  emitted : list signal
}.

(** [__init__], before any data is set. *)
Definition init : ModestImage :=
  {| _A := None; _extent := None; _full_res := None;
     _sx := None; _sy := None;
     _bounds := (None, None, None, None);
     emitted := [] |}.

(** [set_data]: the base class stores the array to draw; the strides are
    cleared ("force redraw"), [_bounds] is not touched. *)
Definition set_data (A : ndarray) (self : ModestImage) : ModestImage :=
  {| _A := Some A; _extent := _extent self; _full_res := Some A;
     _sx := None; _sy := None;
     _bounds := _bounds self;
     emitted := emitted self |}.

(** The values of the locals [x0, x1, y0, y1, sx, sy] at line 48. *)
Record view : Type := {
  x0 : Z; x1 : Z; y0 : Z; y1 : Z;
  sx : pyfloat; sy : pyfloat
}.

Definition half : pyfloat := Fin (1 # 2).
Definition five : pyfloat := Fin 5.

(** Lines 36-48 of [_scale_to_res]. *)
Definition ideal_view (ax : Axes) (full : ndarray) : result view :=
  let ext := ext ax in
  let xlim := get_xlim ax in
  let ylim := get_ylim ax in
  let dx := fsub (snd xlim) (fst xlim) in
  let dy := fsub (snd ylim) (fst ylim) in
  let y0 := py_max (of_Z 0) (fsub (fst ylim) dy) in
  let y1 := py_min (of_Z (fst (shape full))) (fadd (snd ylim) dy) in
  let x0 := py_max (of_Z 0) (fsub (fst xlim) dx) in
  let x1 := py_min (of_Z (snd (shape full))) (fadd (snd xlim) dx) in
  y0 <- py_int y0 ;;
  y1 <- py_int y1 ;;
  x0 <- py_int x0 ;;
  x1 <- py_int x1 ;;
  let sy := py_max (of_Z 1) (py_min (fdiv (of_Z (y1 - y0)) five) (fdiv dy (snd ext))) in
  let sx := py_max (of_Z 1) (py_min (fdiv (of_Z (x1 - x0)) five) (fdiv dx (fst ext))) in
  Ok {| x0 := x0; x1 := x1; y0 := y0; y1 := y1; sx := sx; sy := sy |}.

(** [s == c] against a cached stride; nothing equals [None]. *)
Definition eq_cached (s : pyfloat) (c : option pyfloat) : bool :=
  match c with
  | None => false
  | Some c => feq s c
  end.

(** [i >= b] and [i <= b] against a cached bound; in Python 2 [None]
    orders below every number.  The bounds are [None] only while the
    strides are, and then the test has already failed. *)
Definition ge_cached (i : Z) (b : option Z) : bool :=
  match b with
  | None => true
  | Some b => b <=? i
  end.

Definition le_cached (i : Z) (b : option Z) : bool :=
  match b with
  | None => false
  | Some b => i <=? b
  end.

(** Lines 51-53: "have we already calculated what we need?" *)
Definition cache_hit (v : view) (self : ModestImage) : bool :=
  let '(b0, b1, b2, b3) := _bounds self in
  eq_cached (sx v) (_sx self) && eq_cached (sy v) (_sy self) &&
  ge_cached (x0 v) b0 && le_cached (x1 v) b1 &&
  ge_cached (y0 v) b2 && le_cached (y1 v) b3.

(** Lines 56-64: slice, store the extent, the strides and the bounds,
    and signal the change. *)
Definition resample (v : view) (full : ndarray) (self : ModestImage)
  : result ModestImage :=
  ky <- as_index (sy v) ;;
  kx <- as_index (sx v) ;;
  A <- getitem full {| start := y0 v; stop := y1 v; step := ky |}
                    {| start := x0 v; stop := x1 v; step := kx |} ;;
  let x1 := x0 v + snd (shape A) in
  let y1 := y0 v + fst (shape A) in
  Ok {| _A := Some A;
        _extent := Some (fsub (of_Z (x0 v)) half, fsub (of_Z x1) half,
                         fsub (of_Z (y0 v)) half, fsub (of_Z y1) half);
        _full_res := _full_res self;
        _sx := Some (sx v);
        _sy := Some (sy v);
        _bounds := (Some (x0 v), Some x1, Some (y0 v), Some y1);
        emitted := emitted self ++ [Changed] |}.

(** [_scale_to_res]: without data, [self._full_res.shape] raises; on a
    cache hit the method returns at line 54 and nothing is changed. *)
Definition _scale_to_res (ax : Axes) (self : ModestImage) : result ModestImage :=
  match _full_res self with
  | None => Raise AttributeError
  | Some full =>
      v <- ideal_view ax full ;;
      if cache_hit v self then Ok self else resample v full self
  end.

End Image.

Arguments ndarray : clear implicits.
Arguments ModestImage : clear implicits.

(** * Notions used in the statements *)

(** The pieces of lines 39-48, one axis at a time. *)
Definition span (lim : pyfloat * pyfloat) : pyfloat :=
  fsub (snd lim) (fst lim).

Definition padded_lo (lim : pyfloat * pyfloat) : pyfloat :=
  py_max (of_Z 0) (fsub (fst lim) (span lim)).

Definition padded_hi (n : Z) (lim : pyfloat * pyfloat) : pyfloat :=
  py_min (of_Z n) (fadd (snd lim) (span lim)).

Definition stride (lo hi : Z) (sp px : pyfloat) : pyfloat :=
  py_max (of_Z 1) (py_min (fdiv (of_Z (hi - lo)) five) (fdiv sp px)).

Section Notions.

Context {V : Type}.
Implicit Types (full A : ndarray V) (self : ModestImage V) (v : view) (ax : Axes).

(** A source array has a shape that is not negative. *)
Definition valid_array (A : ndarray V) : Prop :=
  0 <= fst (shape A) /\ 0 <= snd (shape A).

(** The state that lines 56-64 leave behind. *)
Definition resampled v (A : ndarray V) self : ModestImage V :=
  {| _A := Some A;
     _extent := Some (fsub (of_Z (x0 v)) half,
                      fsub (of_Z (x0 v + snd (shape A))) half,
                      fsub (of_Z (y0 v)) half,
                      fsub (of_Z (y0 v + fst (shape A))) half);
     _full_res := _full_res self;
     _sx := Some (sx v);
     _sy := Some (sy v);
     _bounds := (Some (x0 v), Some (x0 v + snd (shape A)),
                 Some (y0 v), Some (y0 v + fst (shape A)));
     emitted := emitted self ++ [Changed] |}.

(** The states an object goes through: created, then any sequence of
    [set_data] with a valid array and of draws that return. *)
Inductive reachable : ModestImage V -> Prop :=
| reach_init : reachable init
| reach_set_data A self :
    valid_array A -> reachable self -> reachable (set_data A self)
| reach_draw ax self self' :
    reachable self -> _scale_to_res ax self = Ok self' -> reachable self'.

(** The positions [lo, hi) are positions of an axis of [n] items. *)
Definition within (lo hi n : Z) : Prop :=
  forall i, lo <= i < hi -> 0 <= i < n.

Definition cached_view_ok self : Prop :=
  exists full bx0 bx1 by0 by1 cx cy,
    _full_res self = Some full /\
    _bounds self = (Some bx0, Some bx1, Some by0, Some by1) /\
    within bx0 bx1 (snd (shape full)) /\
    within by0 by1 (fst (shape full)) /\
    _sx self = Some cx /\ _sy self = Some cy /\
    fle (of_Z 1) cx = true /\ fle (of_Z 1) cy = true.

(** What holds of every reachable object. *)
Definition cache_inv self : Prop :=
  (forall full, _full_res self = Some full -> valid_array full) /\
  (_sx self = None \/ cached_view_ok self).

(** What is displayed is a subsample of the current array: [_A] is the
    slice of [_full_res] that starts at the cached lower bounds with the
    integer parts of the cached strides as steps, the cached upper bounds
    are the lower ones plus its shape, and the extent is the bounds moved
    by half a sample. *)
Definition displayed_ok self : Prop :=
  exists full A (bx0 by0 px py kx ky : Z) (cx cy : pyfloat),
    _full_res self = Some full /\
    _sx self = Some cx /\ _sy self = Some cy /\
    as_index cx = Ok kx /\ as_index cy = Ok ky /\ 1 <= kx /\ 1 <= ky /\
    0 <= bx0 /\ 0 <= by0 /\
    getitem full {| start := by0; stop := py; step := ky |}
                 {| start := bx0; stop := px; step := kx |} = Ok A /\
    _A self = Some A /\
    _bounds self = (Some bx0, Some (bx0 + snd (shape A)),
                    Some by0, Some (by0 + fst (shape A))) /\
    _extent self = Some (fsub (of_Z bx0) half,
                         fsub (of_Z (bx0 + snd (shape A))) half,
                         fsub (of_Z by0) half,
                         fsub (of_Z (by0 + fst (shape A))) half).

(** What holds of every reachable object, for the display. *)
Definition display_inv self : Prop :=
  (forall full, _full_res self = Some full -> valid_array full) /\
  (_sx self = None \/ displayed_ok self).

(** The displayed state: everything but the trace of signals. *)
Definition same_display self1 self2 : Prop :=
  _A self1 = _A self2 /\ _extent self1 = _extent self2 /\
  _full_res self1 = _full_res self2 /\
  _sx self1 = _sx self2 /\ _sy self1 = _sy self2 /\
  _bounds self1 = _bounds self2.

End Notions.

(** The limits [lim'] are the limits [lim] moved toward the far end of
    an axis of [n] samples by at least one sample, the span unchanged,
    with the padded upper edge not negative before and inside the axis
    after. *)
Definition panned_up (n : Z) (lim lim' : pyfloat * pyfloat) : Prop :=
  exists a b a' b' : Q,
    lim = (Fin a, Fin b) /\ lim' = (Fin a', Fin b') /\
    (a <= b)%Q /\ (b' - a' == b - a)%Q /\ (b + 1 <= b')%Q /\
    (0 <= b + (b - a))%Q /\ (b' + (b' - a') <= inject_Z n)%Q.

(** One of the two limits of an axis is [nan]. *)
Definition has_nan (lim : pyfloat * pyfloat) : Prop :=
  fst lim = NaN \/ snd lim = NaN.

(** The same axes with another pixel size. *)
Definition set_ext (e : pyfloat * pyfloat) (ax : Axes) : Axes :=
  {| get_xlim := get_xlim ax; get_ylim := get_ylim ax; ext := e |}.

Definition double_pixels (ax : Axes) : Axes :=
  set_ext (fmul (of_Z 2) (fst (ext ax)), fmul (of_Z 2) (snd (ext ax))) ax.

(** ** The stride formula

    The crop and the stride as the specification words them, written in
    the arithmetic of the rationals of the standard library (its maximum,
    minimum, division, floor and ceiling), apart from the operations of
    the code above, and compared with the code. *)

(** Truncation toward zero. *)
Definition Qtrunc (q : Q) : Z :=
  if Qle_bool 0 q then Qfloor q else Qceiling q.

(** [max(0, lo - span)] and [min(size, hi + span)], truncated. *)
Definition spec_crop_lo (lo hi : Q) : Z :=
  Qtrunc (Qmax 0 (lo - (hi - lo))).

Definition spec_crop_hi (n : Z) (lo hi : Q) : Z :=
  Qtrunc (Qmin (inject_Z n) (hi + (hi - lo))).

(** [max(1, min((crop_hi - crop_lo) / 5, span / pixels))] *)
Definition spec_stride (crop_lo crop_hi : Z) (lo hi px : Q) : Q :=
  Qmax 1 (Qmin (inject_Z (crop_hi - crop_lo) / 5) ((hi - lo) / px)).

(** Axis limits that are numbers, not inverted. *)
Definition window_ok (lim : pyfloat * pyfloat) : bool :=
  finite (fst lim) && finite (snd lim) && fle (fst lim) (snd lim).

(** A pixel size that is zero; one that is a negative number. *)
Definition pixels_zero (px : pyfloat) : bool := feq px (of_Z 0).

Definition pixels_negative (px : pyfloat) : bool :=
  finite px && flt px (of_Z 0).

(** * Worked inputs *)

(** ** A 2000 x 2000 array seen through a 500 x 500 pixel surface *)

Definition example_data : ndarray Z :=
  {| shape := (2000, 2000); item := fun i j => 2000 * i + j |}.

Definition example_axes : Axes :=
  {| get_xlim := (of_Z 0, of_Z 1000);
     get_ylim := (of_Z 0, of_Z 1000);
     ext := (of_Z 500, of_Z 500) |}.

Definition example_view : view :=
  {| x0 := 0; x1 := 2000; y0 := 0; y1 := 2000; sx := Fin 2; sy := Fin 2 |}.

(** Every second sample of the full array. *)
Definition example_subsample : ndarray Z :=
  {| shape := (1000, 1000);
     item := fun i j => item example_data (0 + i * 2) (0 + j * 2) |}.

Definition loaded : ModestImage Z := set_data example_data init.

Definition drawn (n : nat) : ModestImage Z :=
  {| _A := Some example_subsample;
     _extent := Some (Fin (-1 # 2), Fin (1999 # 2), Fin (-1 # 2), Fin (1999 # 2));
     _full_res := Some example_data;
     _sx := Some (Fin 2);
     _sy := Some (Fin 2);
     _bounds := (Some 0, Some 1000, Some 0, Some 1000);
     emitted := repeat Changed n |}.

(** ** A new array after a draw *)

Definition small_data : ndarray Z :=
  {| shape := (100, 100); item := fun i j => 100 * i + j |}.

(** ** A surface of zero width *)

Definition zero_width_axes : Axes := set_ext (of_Z 0, of_Z 500) example_axes.

Definition zero_width_view : view :=
  {| x0 := 0; x1 := 2000; y0 := 0; y1 := 2000; sx := Fin 400; sy := Fin 2 |}.

(** A surface of negative width. *)
Definition negative_width_axes : Axes :=
  set_ext (of_Z (-500), of_Z 500) example_axes.

(** ** A stride between 1 and 2 *)

Definition fractional_axes : Axes :=
  {| get_xlim := (of_Z 0, of_Z 750);
     get_ylim := (of_Z 0, of_Z 750);
     ext := (of_Z 500, of_Z 500) |}.

Definition fractional_view : view :=
  {| x0 := 0; x1 := 1500; y0 := 0; y1 := 1500;
     sx := Fin (3 # 2); sy := Fin (3 # 2) |}.

Definition fractional_drawn : ModestImage Z :=
  {| _A := Some {| shape := (1500, 1500);
                   item := fun i j => item example_data (0 + i * 1) (0 + j * 1) |};
     _extent := Some (Fin (-1 # 2), Fin (2999 # 2), Fin (-1 # 2), Fin (2999 # 2));
     _full_res := Some example_data;
     _sx := Some (Fin (3 # 2));
     _sy := Some (Fin (3 # 2));
     _bounds := (Some 0, Some 1500, Some 0, Some 1500);
     emitted := [Changed] |}.

(** The same stride with the window moved 100 to the left: the crop
    (0, 1400) lies within the cached (0, 1500). *)
Definition panned_axes : Axes :=
  {| get_xlim := (of_Z (-100), of_Z 650);
     get_ylim := (of_Z (-100), of_Z 650);
     ext := (of_Z 500, of_Z 500) |}.

Definition panned_view : view :=
  {| x0 := 0; x1 := 1400; y0 := 0; y1 := 1400;
     sx := Fin (3 # 2); sy := Fin (3 # 2) |}.

(** ** Limits that are infinite or not numbers *)

Definition infinite_axes : Axes :=
  {| get_xlim := (PInf, of_Z 5);
     get_ylim := (of_Z 0, of_Z 1000);
     ext := (of_Z 500, of_Z 500) |}.

Definition nan_axes : Axes :=
  {| get_xlim := (NaN, of_Z 10);
     get_ylim := (of_Z 0, of_Z 1000);
     ext := (of_Z 500, of_Z 500) |}.

Definition nan_view : view :=
  {| x0 := 0; x1 := 2000; y0 := 0; y1 := 2000; sx := Fin 400; sy := Fin 2 |}.

(** ** Windows off the array *)

Definition beyond_axes : Axes :=
  {| get_xlim := (of_Z 5000, of_Z 6000);
     get_ylim := (of_Z 0, of_Z 1000);
     ext := (of_Z 500, of_Z 500) |}.

Definition beyond_view : view :=
  {| x0 := 4000; x1 := 2000; y0 := 0; y1 := 2000; sx := Fin 1; sy := Fin 2 |}.

Definition before_axes : Axes :=
  {| get_xlim := (of_Z (-3000), of_Z (-2000));
     get_ylim := (of_Z 0, of_Z 1000);
     ext := (of_Z 500, of_Z 500) |}.

Definition before_view : view :=
  {| x0 := 0; x1 := -1000; y0 := 0; y1 := 2000; sx := Fin 1; sy := Fin 2 |}.

(** ** A window that the surface resolves *)

Definition resolved_axes : Axes :=
  {| get_xlim := (of_Z 0, of_Z 400);
     get_ylim := (of_Z 0, of_Z 400);
     ext := (of_Z 500, of_Z 500) |}.

Definition resolved_view : view :=
  {| x0 := 0; x1 := 800; y0 := 0; y1 := 800; sx := Fin 1; sy := Fin 1 |}.

(** ** A window moved to the right *)

Definition moved_axes : Axes :=
  {| get_xlim := (of_Z 100, of_Z 850);
     get_ylim := (of_Z 0, of_Z 750);
     ext := (of_Z 500, of_Z 500) |}.

Definition moved_view : view :=
  {| x0 := 0; x1 := 1600; y0 := 0; y1 := 1500;
     sx := Fin (3 # 2); sy := Fin (3 # 2) |}.

(** * Properties *)

(** ** Numbers *)

Lemma Qltb_true (x y : Q) : Qltb x y = true <-> (x < y)%Q.
Proof.
  unfold Qltb. rewrite Qlt_alt. destruct (x ?= y)%Q; intuition congruence.
Qed.

Lemma Qltb_false (x y : Q) : Qltb x y = false <-> (y <= x)%Q.
Proof.
  split; intro H.
  - apply Qnot_lt_le. intro L. apply Qltb_true in L. congruence.
  - destruct (Qltb x y) eqn:E; [|reflexivity].
    apply Qltb_true in E. exfalso. exact (Qle_not_lt _ _ H E).
Qed.

Lemma Qeqb_false (x y : Q) : Qeq_bool x y = false <-> ~ (x == y)%Q.
Proof.
  split.
  - intros H E. apply Qeq_bool_iff in E. congruence.
  - intro H. destruct (Qeq_bool x y) eqn:E; [|reflexivity].
    apply Qeq_bool_iff in E. contradiction.
Qed.

(** Turns the boolean comparisons of the context and goal into
    propositions over [Q]. *)
Ltac qprop :=
  repeat match goal with
  | H : Qltb _ _ = true |- _ => apply Qltb_true in H
  | H : Qltb _ _ = false |- _ => apply Qltb_false in H
  | H : Qeq_bool _ _ = true |- _ => apply Qeq_bool_iff in H
  | H : Qeq_bool _ _ = false |- _ => apply Qeqb_false in H
  | |- Qltb _ _ = true => apply Qltb_true
  | |- Qltb _ _ = false => apply Qltb_false
  | |- Qeq_bool _ _ = true => apply Qeq_bool_iff
  | |- Qeq_bool _ _ = false => apply Qeqb_false
  end.

Ltac qred :=
  repeat match goal with
  | H : context [Qred ?q] |- _ => rewrite (Qred_correct q) in H
  | |- context [Qred ?q] => rewrite (Qred_correct q)
  end.

Lemma fdiv_fin_five (x : Q) : fdiv (Fin x) five = Fin (Qred (x / 5)).
Proof. reflexivity. Qed.

Lemma fdiv_five (n : Z) : fdiv (of_Z n) five = Fin (Qred (inject_Z n / 5)).
Proof. reflexivity. Qed.

Lemma py_min_fin (c : Q) (q : pyfloat) :
  py_min (Fin c) q = NInf \/
  exists m : Q, py_min (Fin c) q = Fin m /\ (m <= c)%Q.
Proof.
  unfold py_min. destruct q as [ | | | q]; cbn [flt].
  - right. exists c. split; [reflexivity | apply Qle_refl].
  - left. reflexivity.
  - right. exists c. split; [reflexivity | apply Qle_refl].
  - right. destruct (Qltb q c) eqn:E.
    + exists q. split; [reflexivity | qprop; lra].
    + exists c. split; [reflexivity | apply Qle_refl].
Qed.

Lemma py_max_one_fin (m : Q) :
  exists s : Q,
    py_max (of_Z 1) (Fin m) = Fin s /\ (1 <= s)%Q /\ (s == 1 \/ s == m)%Q.
Proof.
  unfold py_max, of_Z. cbn [flt]. destruct (Qltb (inject_Z 1) m) eqn:E.
  - exists m. qprop. change (inject_Z 1) with 1%Q in E.
    split; [reflexivity|]. split; [lra | right; reflexivity].
  - exists (inject_Z 1). split; [reflexivity|].
    split; [apply Qle_refl | left; reflexivity].
Qed.

(** The stride expression of lines 47-48 is always a finite number, at
    least 1, and above 1 only when a fifth of the crop span is. *)
Lemma stride_finite (n : Z) (q : pyfloat) :
  exists s : Q,
    py_max (of_Z 1) (py_min (fdiv (of_Z n) five) q) = Fin s /\
    (1 <= s)%Q /\ (s == 1 \/ s <= inject_Z n / 5)%Q.
Proof.
  rewrite fdiv_five.
  destruct (py_min_fin (Qred (inject_Z n / 5)) q) as [-> | (m & -> & Hm)].
  - exists (inject_Z 1). split; [reflexivity|].
    split; [apply Qle_refl | left; reflexivity].
  - destruct (py_max_one_fin m) as (s & -> & H1 & [H2 | H2]).
    + exists s. split; [reflexivity|]. split; [exact H1 | left; exact H2].
    + exists s. split; [reflexivity|]. split; [exact H1 | right].
      rewrite Qred_correct in Hm. lra.
Qed.

Lemma py_max_one_ge (b : pyfloat) : fle (of_Z 1) (py_max (of_Z 1) b) = true.
Proof.
  unfold py_max, fle. destruct (flt (of_Z 1) b) eqn:E.
  - rewrite E. reflexivity.
  - reflexivity.
Qed.

(** ** Truncation *)

Lemma quot_nonneg (a : Z) (b : positive) : 0 <= a -> 0 <= Z.quot a (Zpos b).
Proof. intro H. apply Z.quot_pos; lia. Qed.

Lemma quot_nonpos (a : Z) (b : positive) : a <= 0 -> Z.quot a (Zpos b) <= 0.
Proof.
  intro H. replace a with (- (- a)) by lia.
  rewrite Z.quot_opp_l by lia.
  pose proof (quot_nonneg (- a) b). lia.
Qed.

Lemma quot_floor (q : Q) : (0 <= q)%Q -> Z.quot (Qnum q) (Zpos (Qden q)) = Qfloor q.
Proof.
  destruct q as [a b]. unfold Qle, Qfloor. cbn. intro H.
  apply Z.quot_div_nonneg; lia.
Qed.

Lemma py_int_lower (f : pyfloat) (z : Z) :
  py_int (py_max (of_Z 0) f) = Ok z -> 0 <= z.
Proof.
  unfold py_max. destruct (flt (of_Z 0) f) eqn:E.
  - destruct f as [ | | | q]; cbn in *; try discriminate.
    intro H. injection H as <-. qprop.
    apply quot_nonneg. unfold Qlt in E. cbn in E. lia.
  - cbn. intro H. injection H as <-. reflexivity.
Qed.

Lemma py_int_upper (w : Z) (f : pyfloat) (z : Z) :
  0 <= w -> py_int (py_min (of_Z w) f) = Ok z -> z <= w.
Proof.
  intro Hw. unfold py_min. destruct (flt f (of_Z w)) eqn:E.
  - destruct f as [ | | | q]; cbn in *; try discriminate.
    intro H. injection H as <-. qprop.
    destruct (Qlt_le_dec q 0) as [Hneg | Hpos].
    + pose proof (quot_nonpos (Qnum q) (Qden q)).
      unfold Qlt in Hneg. cbn in Hneg. lia.
    + rewrite quot_floor by assumption.
      pose proof (Qfloor_le q) as Hfl.
      assert (Hlt : (inject_Z (Qfloor q) < inject_Z w)%Q) by lra.
      rewrite <- Zlt_Qlt in Hlt. lia.
  - cbn. rewrite Z.quot_1_r. intro H. injection H as <-. lia.
Qed.

(** The integer step of a stride at least 1. *)
Lemma as_index_stride (s : Q) :
  (1 <= s)%Q ->
  exists k : Z, as_index (Fin s) = Ok k /\ 1 <= k /\ (inject_Z k <= s)%Q.
Proof.
  intro H. exists (Qfloor s). unfold as_index, py_int.
  rewrite quot_floor by lra. split; [reflexivity|]. split.
  - change 1 with (Qfloor 1). apply Qfloor_resp_le. exact H.
  - apply Qfloor_le.
Qed.

(** ** Slices *)

(** Case analysis on the integer tests of the goal, innermost first. *)
Ltac no_test t :=
  lazymatch t with
  | context [if _ then _ else _] => fail
  | _ => idtac
  end.

Ltac zcase :=
  repeat match goal with
  | |- context [?a <? ?b] =>
      no_test a; no_test b; destruct (Z.ltb_spec a b)
  | |- context [?a <=? ?b] =>
      no_test a; no_test b; destruct (Z.leb_spec a b)
  | |- context [?a =? ?b] =>
      no_test a; no_test b; destruct (Z.eqb_spec a b)
  end.

Lemma div_le_self (d k : Z) : 0 <= d -> 0 < k -> 0 <= d / k <= d.
Proof.
  intros Hd Hk. split.
  - apply Z.div_pos; lia.
  - apply Z.div_le_upper_bound; nia.
Qed.

Lemma slice_length_nonneg (n : Z) (s : slice) :
  0 < step s -> 0 <= slice_length n s.
Proof.
  intro Hk. unfold slice_length. zcase; try lia.
  pose proof (div_le_self (slice_stop n s - slice_start n s - 1) (step s)).
  lia.
Qed.

(** A slice that starts at a non-negative index reads only items of the
    axis: the positions [a, a + length) lie in [0, n). *)
Lemma slice_within (n a b k : Z) :
  0 <= n -> 0 <= a -> 0 < k ->
  forall i, a <= i < a + slice_length n {| start := a; stop := b; step := k |} ->
            0 <= i < n.
Proof.
  intros Hn Ha Hk i.
  unfold slice_length, slice_start, slice_stop, adjust. cbn.
  zcase; try lia;
    match goal with
    | |- context [?d / k] => pose proof (div_le_self d k)
    end; lia.
Qed.

(** With a step of 2 or more, a slice over at least two items of the axis
    is shorter than the span it was asked for. *)
Lemma slice_shorter (n a b k : Z) :
  0 <= a -> b <= n -> 2 <= b - a -> 2 <= k ->
  a + slice_length n {| start := a; stop := b; step := k |} < b.
Proof.
  intros Ha Hb Hab Hk.
  assert (Hdiv : (b - a - 1) / k < b - a - 1) by (apply Z.div_lt; lia).
  unfold slice_length, slice_start, slice_stop, adjust. cbn.
  zcase; try lia.
  replace n with b in * by lia. lia.
Qed.

(** With a step of 1 the slice has the span it was asked for. *)
Lemma slice_step_one (n a b : Z) :
  0 <= a -> a <= b -> b <= n ->
  slice_length n {| start := a; stop := b; step := 1 |} = b - a.
Proof.
  intros Ha Hab Hb.
  unfold slice_length, slice_start, slice_stop, adjust. cbn.
  rewrite !Z.div_1_r. zcase; lia.
Qed.

(** ** The computed view *)

Section ImageFacts.

Context {V : Type}.
Implicit Types (full A : ndarray V) (self : ModestImage V) (v : view) (ax : Axes).

Lemma ideal_view_inv ax full v :
  ideal_view ax full = Ok v ->
  py_int (padded_lo (get_ylim ax)) = Ok (y0 v) /\
  py_int (padded_hi (fst (shape full)) (get_ylim ax)) = Ok (y1 v) /\
  py_int (padded_lo (get_xlim ax)) = Ok (x0 v) /\
  py_int (padded_hi (snd (shape full)) (get_xlim ax)) = Ok (x1 v) /\
  sy v = stride (y0 v) (y1 v) (span (get_ylim ax)) (snd (ext ax)) /\
  sx v = stride (x0 v) (x1 v) (span (get_xlim ax)) (fst (ext ax)).
Proof.
  unfold ideal_view.
  fold (span (get_xlim ax)) (span (get_ylim ax)).
  fold (padded_lo (get_xlim ax)) (padded_lo (get_ylim ax)).
  fold (padded_hi (fst (shape full)) (get_ylim ax)).
  fold (padded_hi (snd (shape full)) (get_xlim ax)).
  destruct (py_int (padded_lo (get_ylim ax))) as [a|]; [|discriminate].
  destruct (py_int (padded_hi _ (get_ylim ax))) as [b|]; [|discriminate].
  destruct (py_int (padded_lo (get_xlim ax))) as [c|]; [|discriminate].
  destruct (py_int (padded_hi _ (get_xlim ax))) as [d|]; [|discriminate].
  cbn. intro H. injection H as <-. cbn. repeat split; reflexivity.
Qed.

Lemma ideal_view_intro ax full (a b c d : Z) :
  py_int (padded_lo (get_ylim ax)) = Ok a ->
  py_int (padded_hi (fst (shape full)) (get_ylim ax)) = Ok b ->
  py_int (padded_lo (get_xlim ax)) = Ok c ->
  py_int (padded_hi (snd (shape full)) (get_xlim ax)) = Ok d ->
  ideal_view ax full =
  Ok {| x0 := c; x1 := d; y0 := a; y1 := b;
        sx := stride c d (span (get_xlim ax)) (fst (ext ax));
        sy := stride a b (span (get_ylim ax)) (snd (ext ax)) |}.
Proof.
  intros Ha Hb Hc Hd. unfold ideal_view.
  fold (span (get_xlim ax)) (span (get_ylim ax)).
  fold (padded_lo (get_xlim ax)) (padded_lo (get_ylim ax)).
  fold (padded_hi (fst (shape full)) (get_ylim ax)).
  fold (padded_hi (snd (shape full)) (get_xlim ax)).
  rewrite Ha, Hb, Hc, Hd. reflexivity.
Qed.

(** The crop bounds of a computed view lie within the array. *)
Lemma view_bounds ax full v :
  valid_array full -> ideal_view ax full = Ok v ->
  0 <= x0 v /\ x1 v <= snd (shape full) /\
  0 <= y0 v /\ y1 v <= fst (shape full).
Proof.
  intros [Hh Hw] H.
  apply ideal_view_inv in H as (Hy0 & Hy1 & Hx0 & Hx1 & _).
  unfold padded_lo in Hx0, Hy0. unfold padded_hi in Hx1, Hy1.
  repeat split;
    eauto using py_int_lower, py_int_upper.
Qed.

(** Both strides of a computed view are finite and at least 1. *)
Lemma view_strides ax full v :
  ideal_view ax full = Ok v ->
  (exists s : Q, sx v = Fin s /\ (1 <= s)%Q /\
                 (s == 1 \/ s <= inject_Z (x1 v - x0 v) / 5)%Q) /\
  (exists s : Q, sy v = Fin s /\ (1 <= s)%Q /\
                 (s == 1 \/ s <= inject_Z (y1 v - y0 v) / 5)%Q).
Proof.
  intro H. apply ideal_view_inv in H as (_ & _ & _ & _ & -> & ->).
  split; apply stride_finite.
Qed.

(** Slicing with the strides of a computed view never raises: the steps
    are integers, at least 1. *)
Lemma resample_ok ax full v self :
  ideal_view ax full = Ok v ->
  exists (ky kx : Z) (A : ndarray V),
    as_index (sy v) = Ok ky /\ 1 <= ky /\
    as_index (sx v) = Ok kx /\ 1 <= kx /\
    getitem full {| start := y0 v; stop := y1 v; step := ky |}
                 {| start := x0 v; stop := x1 v; step := kx |} = Ok A /\
    resample v full self = Ok (resampled v A self).
Proof.
  intro H. destruct (view_strides _ _ _ H) as [(s & Hs & Hs1 & _) (t & Ht & Ht1 & _)].
  destruct (as_index_stride s Hs1) as (kx & Hkx & Hkx1 & _).
  destruct (as_index_stride t Ht1) as (ky & Hky & Hky1 & _).
  exists ky, kx.
  rewrite <- Hs in Hkx. rewrite <- Ht in Hky.
  unfold resample. rewrite Hkx, Hky. cbn [bind].
  unfold getitem. cbn [step].
  destruct (Z.eqb_spec ky 0); [lia|]. destruct (Z.eqb_spec kx 0); [lia|].
  cbn [orb bind]. eexists. repeat split; try eassumption; reflexivity.
Qed.

End ImageFacts.

(** ** The stride formula *)

Lemma py_min_finite (x y : Q) : exists m : Q, py_min (Fin x) (Fin y) = Fin m.
Proof. unfold py_min. destruct (flt _ _); eauto. Qed.

Lemma py_max_finite (x y : Q) : exists m : Q, py_max (Fin x) (Fin y) = Fin m.
Proof. unfold py_max. destruct (flt _ _); eauto. Qed.

Lemma window_ok_inv (lim : pyfloat * pyfloat) :
  window_ok lim = true ->
  exists a b : Q, lim = (Fin a, Fin b) /\ (a <= b)%Q.
Proof.
  destruct lim as [[ | | | a] [ | | | b]]; unfold window_ok, fle; cbn;
    try discriminate.
  intro H. exists a, b. split; [reflexivity|].
  destruct (Qltb a b) eqn:E1; destruct (Qeq_bool a b) eqn:E2;
    cbn in H; try discriminate; qprop; lra.
Qed.









Section StrideFormula.

Context {V : Type}.

(** A view window with finite limits always yields a view, whatever the
    surface extent. *)
Lemma ideal_view_total (ax : Axes) (full : ndarray V) :
  finite (fst (get_xlim ax)) = true -> finite (snd (get_xlim ax)) = true ->
  finite (fst (get_ylim ax)) = true -> finite (snd (get_ylim ax)) = true ->
  exists v : view, ideal_view ax full = Ok v.
Proof.
  destruct ax as [[[ | | | a] [ | | | b]] [[ | | | c] [ | | | d]] e];
    cbn [get_xlim get_ylim fst snd finite]; try discriminate.
  intros _ _ _ _.
  destruct (py_max_finite (inject_Z 0) (Qred (a - Qred (b - a)))) as [m1 H1].
  destruct (py_min_finite (inject_Z (snd (shape full))) (Qred (b + Qred (b - a)))) as [m2 H2].
  destruct (py_max_finite (inject_Z 0) (Qred (c - Qred (d - c)))) as [m3 H3].
  destruct (py_min_finite (inject_Z (fst (shape full))) (Qred (d + Qred (d - c)))) as [m4 H4].
  eexists. apply ideal_view_intro;
    unfold padded_lo, padded_hi, span, of_Z; cbn [get_xlim get_ylim fst snd fsub fadd];
    rewrite ?H1, ?H2, ?H3, ?H4; reflexivity.
Qed.

End StrideFormula.

(** ** The cache *)

Section Cache.

Context {V : Type}.
Implicit Types (full A : ndarray V) (self : ModestImage V) (v : view) (ax : Axes).

(** C4: when the computed strides equal the cached ones and the computed
    crop region lies within the cached bounds, [_scale_to_res] returns
    the object as it was: subsample, extent, strides and bounds are
    untouched and no "changed" signal is emitted. *)
Theorem cache_hit_frame ax self full v (cx cy : pyfloat) (b0 b1 b2 b3 : Z) :
  _full_res self = Some full ->
  ideal_view ax full = Ok v ->
  _sx self = Some cx -> _sy self = Some cy ->
  _bounds self = (Some b0, Some b1, Some b2, Some b3) ->
  feq (sx v) cx = true -> feq (sy v) cy = true ->
  b0 <= x0 v -> x1 v <= b1 -> b2 <= y0 v -> y1 v <= b3 ->
  _scale_to_res ax self = Ok self.
Proof.
  intros Hfull Hv Hsx Hsy Hb Ex Ey H0 H1 H2 H3.
  unfold _scale_to_res. rewrite Hfull, Hv. cbn [bind].
  unfold cache_hit. rewrite Hb, Hsx, Hsy. cbn [eq_cached ge_cached le_cached].
  rewrite Ex, Ey. cbn [andb].
  repeat match goal with
  | |- context [?a <=? ?b] => destruct (Z.leb_spec a b); [|lia]
  end.
  reflexivity.
Qed.

(** After [set_data] no view passes the cache test: nothing compares
    equal to the cleared strides. *)
Lemma cache_miss_after_set_data A self v : cache_hit v (set_data A self) = false.
Proof.
  unfold cache_hit. cbn [set_data _bounds _sx _sy].
  destruct (_bounds self) as [[[b0 b1] b2] b3]. reflexivity.
Qed.

Lemma scale_after_set_data ax A self :
  _scale_to_res ax (set_data A self) =
  (v <- ideal_view ax A ;; resample v A (set_data A self)).
Proof.
  unfold _scale_to_res. cbn [set_data _full_res].
  destruct (ideal_view ax A) as [v|e]; cbn [bind]; [|reflexivity].
  rewrite cache_miss_after_set_data. reflexivity.
Qed.

(** C5, as the code has it: [set_data] always succeeds, replaces the
    source array and clears both cached strides; the cached bounds stay
    as they were.  Clearing the strides is enough for the next
    [_scale_to_res] to recompute. *)
Theorem set_data_clears_strides A self :
  _full_res (set_data A self) = Some A /\
  _sx (set_data A self) = None /\
  _sy (set_data A self) = None /\
  _bounds (set_data A self) = _bounds self /\
  (forall v, cache_hit v (set_data A self) = false) /\
  (forall ax, _scale_to_res ax (set_data A self) =
              (v <- ideal_view ax A ;; resample v A (set_data A self))).
Proof.
  repeat split.
  - intro v. apply cache_miss_after_set_data.
  - intro ax. apply scale_after_set_data.
Qed.

(** C10: the first [_scale_to_res] after [set_data] never takes the
    cached path.  The cache test is false for every view (the cleared
    strides equal no computed stride, whatever bounds were left over);
    if the call returns, it has sliced the new array with the computed
    view and emitted "changed"; it raises only when the conversion of a
    crop bound to an integer does; and it returns for every view window
    whose limits are numbers and not inverted, whatever the surface
    extent. *)
Theorem first_draw_recomputes ax self A :
  (forall v, cache_hit v (set_data A self) = false) /\
  match _scale_to_res ax (set_data A self) with
  | Ok self' =>
      exists v ky kx A',
        ideal_view ax A = Ok v /\
        as_index (sy v) = Ok ky /\ as_index (sx v) = Ok kx /\
        getitem A {| start := y0 v; stop := y1 v; step := ky |}
                  {| start := x0 v; stop := x1 v; step := kx |} = Ok A' /\
        self' = resampled v A' (set_data A self) /\
        emitted self' = emitted self ++ [Changed]
  | Raise e => ideal_view ax A = Raise e
  end /\
  (window_ok (get_xlim ax) && window_ok (get_ylim ax) = true ->
   is_ok (_scale_to_res ax (set_data A self)) = true).
Proof.
  split; [intro v; apply cache_miss_after_set_data|].
  rewrite scale_after_set_data.
  assert (Hok : forall v, ideal_view ax A = Ok v ->
            exists ky kx A',
              as_index (sy v) = Ok ky /\ as_index (sx v) = Ok kx /\
              getitem A {| start := y0 v; stop := y1 v; step := ky |}
                        {| start := x0 v; stop := x1 v; step := kx |} = Ok A' /\
              resample v A (set_data A self) = Ok (resampled v A' (set_data A self))).
  { intros v Hv.
    destruct (resample_ok ax A v (set_data A self) Hv)
      as (ky & kx & A' & Hky & _ & Hkx & _ & Hget & Hres).
    exists ky, kx, A'. auto. }
  split.
  - destruct (ideal_view ax A) as [v|e] eqn:Hv; cbn [bind]; [|reflexivity].
    destruct (Hok v eq_refl) as (ky & kx & A' & Hky & Hkx & Hget & Hres).
    rewrite Hres. exists v, ky, kx, A'. repeat split; assumption.
  - intro Hwin. apply andb_prop in Hwin as [Hx Hy].
    destruct (window_ok_inv _ Hx) as (a & b & Ex & _).
    destruct (window_ok_inv _ Hy) as (c & d & Ey & _).
    destruct (ideal_view_total ax A) as [v Hv];
      try (rewrite ?Ex, ?Ey; reflexivity).
    destruct (Hok v Hv) as (ky & kx & A' & _ & _ & _ & Hres).
    rewrite Hv. cbn [bind]. rewrite Hres. reflexivity.
Qed.

(** *** States *)

Lemma resampled_view_ok ax full v self (ky kx : Z) A :
  valid_array full ->
  _full_res self = Some full ->
  ideal_view ax full = Ok v ->
  1 <= ky -> 1 <= kx ->
  getitem full {| start := y0 v; stop := y1 v; step := ky |}
               {| start := x0 v; stop := x1 v; step := kx |} = Ok A ->
  cached_view_ok (resampled v A self).
Proof.
  intros Hvalid Hfull Hv Hky Hkx Hget.
  destruct (view_bounds _ _ _ Hvalid Hv) as (Hx0 & _ & Hy0 & _).
  destruct Hvalid as [Hh Hw].
  unfold getitem in Hget. cbn [step] in Hget.
  destruct (Z.eqb_spec ky 0); [lia|]. destruct (Z.eqb_spec kx 0); [lia|].
  cbn [orb] in Hget. injection Hget as <-.
  apply ideal_view_inv in Hv as (_ & _ & _ & _ & Hsy & Hsx).
  exists full. do 6 eexists. cbn [resampled _full_res _bounds _sx _sy shape fst snd].
  split; [exact Hfull|]. split; [reflexivity|].
  split; [intros i Hi; eapply slice_within; [| | |exact Hi]; lia|].
  split; [intros i Hi; eapply slice_within; [| | |exact Hi]; lia|].
  split; [reflexivity|]. split; [reflexivity|].
  rewrite Hsx, Hsy. split; apply py_max_one_ge.
Qed.

Lemma cache_hit_cached v self :
  cache_hit v self = true -> _sx self <> None.
Proof.
  unfold cache_hit. destruct (_bounds self) as [[[b0 b1] b2] b3].
  destruct (_sx self); [discriminate|]. cbn. discriminate.
Qed.

Lemma scale_to_res_inv ax self self' :
  _scale_to_res ax self = Ok self' ->
  exists full v,
    _full_res self = Some full /\ ideal_view ax full = Ok v /\
    ((cache_hit v self = true /\ self' = self) \/
     (cache_hit v self = false /\ resample v full self = Ok self')).
Proof.
  unfold _scale_to_res. destruct (_full_res self) as [full|]; [|discriminate].
  destruct (ideal_view ax full) as [v|] eqn:Hv; [|discriminate]. cbn [bind].
  destruct (cache_hit v self) eqn:Hhit; intro H; exists full, v.
  - injection H as <-. auto.
  - auto.
Qed.

Lemma cache_inv_draw ax self self' :
  cache_inv self -> _scale_to_res ax self = Ok self' ->
  cache_inv self' /\ cached_view_ok self'.
Proof.
  intros [Hvalid Hc] H.
  apply scale_to_res_inv in H
    as (full & v & Hfull & Hv & [[Hhit ->] | [Hmiss Hres]]).
  - apply cache_hit_cached in Hhit.
    destruct Hc as [Hc | Hc]; [contradiction|].
    split; [split; [exact Hvalid | right; exact Hc] | exact Hc].
  - destruct (resample_ok ax full v self Hv)
      as (ky & kx & A & _ & Hky & _ & Hkx & Hget & Hres').
    rewrite Hres' in Hres. injection Hres as <-.
    assert (Hok : cached_view_ok (resampled v A self))
      by exact (resampled_view_ok ax full v self ky kx A
                  (Hvalid full Hfull) Hfull Hv Hky Hkx Hget).
    split; [split; [exact Hvalid | right; exact Hok] | exact Hok].
Qed.

Lemma reachable_inv self : reachable self -> cache_inv self.
Proof.
  induction 1 as [ | A self HA _ _ | ax self self' _ IH Hdraw].
  - split; [discriminate | left; reflexivity].
  - split.
    + cbn. intros full E. injection E as <-. exact HA.
    + left. reflexivity.
  - apply (cache_inv_draw ax self self' IH Hdraw).
Qed.

(** C6: after every [_scale_to_res] that returns, the crop region stored
    in the cache lies within the source array, [bx0, bx1) within
    [0, width) and [by0, by1) within [0, height), and both cached
    strides are at least 1. *)
Theorem cached_region_within ax self self' :
  reachable self ->
  _scale_to_res ax self = Ok self' ->
  exists full bx0 bx1 by0 by1 cx cy,
    _full_res self' = Some full /\
    _bounds self' = (Some bx0, Some bx1, Some by0, Some by1) /\
    (forall i, bx0 <= i < bx1 -> 0 <= i < snd (shape full)) /\
    (forall j, by0 <= j < by1 -> 0 <= j < fst (shape full)) /\
    _sx self' = Some cx /\ _sy self' = Some cy /\
    fle (of_Z 1) cx = true /\ fle (of_Z 1) cy = true.
Proof.
  intros Hreach Hdraw.
  exact (proj2 (cache_inv_draw ax self self' (reachable_inv self Hreach) Hdraw)).
Qed.

End Cache.

(** ** The surface extent *)

Lemma fle_fin (a b : Q) : (a <= b)%Q -> fle (Fin a) (Fin b) = true.
Proof.
  intro H. unfold fle. cbn [flt feq].
  destruct (Qltb a b) eqn:E1; [reflexivity|].
  destruct (Qeq_bool a b) eqn:E2; [reflexivity|].
  qprop. exfalso. apply E2. lra.
Qed.

Lemma Qltb_double (p : Q) : Qltb (Qred (inject_Z 2 * p)) 0 = Qltb p 0.
Proof.
  change (inject_Z 2) with 2%Q.
  destruct (Qltb (Qred (2 * p)) 0) eqn:E1, (Qltb p 0) eqn:E2;
    try reflexivity; qprop; qred; lra.
Qed.

Lemma Qeqb_double (p : Q) : Qeq_bool (Qred (inject_Z 2 * p)) 0 = Qeq_bool p 0.
Proof.
  change (inject_Z 2) with 2%Q.
  destruct (Qeq_bool (Qred (2 * p)) 0) eqn:E1, (Qeq_bool p 0) eqn:E2;
    try reflexivity; qprop; qred; exfalso.
  - apply E2. lra.
  - apply E1. lra.
Qed.

(** Dividing by the doubled pixel size gives the same value, or a finite
    quotient of the same sign and no larger magnitude. *)
Lemma halved_quotient (sp px : pyfloat) :
  fdiv sp (fmul (of_Z 2) px) = fdiv sp px \/
  exists t t' : Q,
    fdiv sp px = Fin t /\ fdiv sp (fmul (of_Z 2) px) = Fin t' /\
    ((0 <= t' <= t)%Q \/ (t <= t' <= 0)%Q).
Proof.
  destruct px as [ | | | p].
  - left. destruct sp; reflexivity.
  - left. destruct sp; reflexivity.
  - left. destruct sp; reflexivity.
  - unfold of_Z. cbn [fmul].
    destruct sp as [ | | | x]; cbn [fdiv].
    + left. reflexivity.
    + left. rewrite Qltb_double. reflexivity.
    + left. rewrite Qltb_double. reflexivity.
    + rewrite Qeqb_double. destruct (Qeq_bool p 0) eqn:Ep.
      * left. reflexivity.
      * right. do 2 eexists. split; [reflexivity|]. split; [reflexivity|].
        qprop.
        assert (E : (2 * Qred (x / Qred (inject_Z 2 * p)) == Qred (x / p))%Q).
        { qred. change (inject_Z 2) with 2%Q. field. exact Ep. }
        revert E. generalize (Qred (x / Qred (inject_Z 2 * p))) (Qred (x / p)).
        intros t' t E.
        destruct (Qlt_le_dec t 0); [right | left]; lra.
Qed.

(** On one axis, doubling the pixel size does not increase the stride. *)
Lemma stride_antitone (lo hi : Z) (sp px : pyfloat) :
  fle (stride lo hi sp (fmul (of_Z 2) px)) (stride lo hi sp px) = true.
Proof.
  unfold stride.
  destruct (halved_quotient sp px) as [-> | (t & t' & -> & -> & Ht)].
  - destruct (stride_finite (hi - lo) (fdiv sp px)) as (s & -> & _).
    apply fle_fin. apply Qle_refl.
  - rewrite fdiv_five. unfold py_max, py_min, of_Z. cbn [flt].
    destruct (Qltb t' _) eqn:E1; destruct (Qltb t _) eqn:E2; cbn [flt];
      match goal with
      | |- context [Qltb (inject_Z 1) ?a] => destruct (Qltb (inject_Z 1) a) eqn:E3
      end;
      try match goal with
      | |- context [Qltb (inject_Z 1) ?a] => destruct (Qltb (inject_Z 1) a) eqn:E4
      end;
      apply fle_fin; qprop; change (inject_Z 1) with 1%Q in *; lra.
Qed.

Section Extent.

Context {V : Type}.
Implicit Types (full A : ndarray V) (self : ModestImage V) (v : view) (ax : Axes).

(** The crop bounds, and whether they can be computed at all, do not
    depend on the pixel size. *)
Lemma ideal_view_set_ext ax full v (e : pyfloat * pyfloat) :
  ideal_view ax full = Ok v ->
  ideal_view (set_ext e ax) full =
  Ok {| x0 := x0 v; x1 := x1 v; y0 := y0 v; y1 := y1 v;
        sx := stride (x0 v) (x1 v) (span (get_xlim ax)) (fst e);
        sy := stride (y0 v) (y1 v) (span (get_ylim ax)) (snd e) |}.
Proof.
  intro H. apply ideal_view_inv in H as (Hy0 & Hy1 & Hx0 & Hx1 & _).
  exact (ideal_view_intro (set_ext e ax) full _ _ _ _ Hy0 Hy1 Hx0 Hx1).
Qed.

Lemma ideal_view_raise_set_ext ax full (e : pyfloat * pyfloat) (err : exn) :
  ideal_view ax full = Raise err ->
  ideal_view (set_ext e ax) full = Raise err.
Proof.
  unfold ideal_view. cbn [set_ext get_xlim get_ylim].
  destruct (py_int (py_max _ (fsub (fst (get_ylim ax)) _))); [|exact (fun H => H)].
  destruct (py_int (py_min _ (fadd (snd (get_ylim ax)) _))); [|exact (fun H => H)].
  destruct (py_int (py_max _ (fsub (fst (get_xlim ax)) _))); [|exact (fun H => H)].
  destruct (py_int (py_min _ (fadd (snd (get_xlim ax)) _))); [|exact (fun H => H)].
  cbn. discriminate.
Qed.

(** C7: with the view window (and the array) held fixed, doubling both
    pixel dimensions of the surface changes neither the crop nor whether
    the view can be computed, and increases the stride on neither axis. *)
Theorem doubling_pixels_stride ax full :
  match ideal_view ax full, ideal_view (double_pixels ax) full with
  | Ok v, Ok v' =>
      x0 v' = x0 v /\ x1 v' = x1 v /\ y0 v' = y0 v /\ y1 v' = y1 v /\
      fle (sx v') (sx v) = true /\ fle (sy v') (sy v) = true
  | Raise e, Raise e' => e' = e
  | _, _ => False
  end.
Proof.
  destruct (ideal_view ax full) as [v|e] eqn:Hv.
  - unfold double_pixels. rewrite (ideal_view_set_ext ax full v _ Hv).
    apply ideal_view_inv in Hv as (_ & _ & _ & _ & Hsy & Hsx).
    cbn [x0 x1 y0 y1 sx sy fst snd]. rewrite Hsx, Hsy.
    repeat split; apply stride_antitone.
  - unfold double_pixels. rewrite (ideal_view_raise_set_ext ax full _ e Hv).
    reflexivity.
Qed.

End Extent.

(** ** Zero and negative pixel sizes *)

Lemma py_max_one_nonpos (m : Q) : (m <= 0)%Q -> py_max (of_Z 1) (Fin m) = of_Z 1.
Proof.
  intro H. unfold py_max, of_Z. cbn [flt].
  destruct (Qltb (inject_Z 1) m) eqn:E; [|reflexivity].
  qprop. change (inject_Z 1) with 1%Q in E. lra.
Qed.

(** A positive span over a zero pixel size is +infinity, which the
    minimum with a fifth of the crop span drops. *)
Lemma stride_zero_pixels (lo hi : Z) (sp px : pyfloat) :
  pixels_zero px = true -> flt (of_Z 0) sp = true ->
  stride lo hi sp px = py_max (of_Z 1) (fdiv (of_Z (hi - lo)) five).
Proof.
  unfold pixels_zero. intros Hpx Hsp. unfold stride. rewrite fdiv_five.
  destruct px as [ | | | p]; try discriminate.
  destruct sp as [ | | | x]; try discriminate.
  - cbn in Hpx. change (inject_Z 0) with 0%Q in Hpx. cbn [fdiv].
    destruct (Qltb p 0) eqn:E; [|reflexivity].
    qprop. lra.
  - cbn in Hpx, Hsp. change (inject_Z 0) with 0%Q in Hpx, Hsp.
    cbn [fdiv]. rewrite Hpx, Hsp. reflexivity.
Qed.

(** A span that is not negative over a negative pixel size is not
    positive, and the stride is 1. *)
Lemma stride_negative_pixels (lo hi : Z) (lim : pyfloat * pyfloat) (px : pyfloat) :
  pixels_negative px = true -> window_ok lim = true ->
  stride lo hi (span lim) px = of_Z 1.
Proof.
  intros Hpx Hlim. destruct (window_ok_inv _ Hlim) as (a & b & -> & Hab).
  unfold stride, span. cbn [fst snd fsub]. rewrite fdiv_five.
  assert (Hq : exists t, fdiv (Fin (Qred (b - a))) px = Fin t /\ (t <= 0)%Q).
  { destruct px as [ | | | p]; try discriminate.
    cbn in Hpx. cbn [fdiv]. qprop. change (inject_Z 0) with 0%Q in Hpx.
    destruct (Qeq_bool p 0) eqn:E; [qprop; lra|].
    eexists. split; [reflexivity|]. qred.
    setoid_replace ((b - a) / p)%Q with (- ((b - a) * / (- p)))%Q
      by (field; qprop; exact E).
    assert (0 <= (b - a) * / (- p))%Q.
    { apply Qmult_le_0_compat; [lra|]. apply Qinv_le_0_compat. lra. }
    lra. }
  destruct Hq as (t & -> & Ht).
  unfold py_min. cbn [flt]. destruct (Qltb t _) eqn:E.
  - apply py_max_one_nonpos. exact Ht.
  - apply py_max_one_nonpos. qprop. lra.
Qed.

Section Unguarded.

Context {V : Type}.
Implicit Types (full A : ndarray V) (self : ModestImage V) (v : view) (ax : Axes).

(** C8, as the code has it: no test of the pixel size guards the
    division.  Whenever the crop bounds can be computed, the call returns,
    and it does for every other pixel size, zero and negative included.
    With a zero pixel size and a positive span the quotient is +infinity
    and the stride on that axis is max(1, (crop_hi - crop_lo) / 5); with
    a negative pixel size and limits that are not inverted the stride on
    that axis is 1. *)
Theorem pixel_size_unguarded ax full v :
  ideal_view ax full = Ok v ->
  (forall self, _full_res self = Some full ->
     exists self', _scale_to_res ax self = Ok self') /\
  (forall e self, _full_res self = Some full ->
     exists self', _scale_to_res (set_ext e ax) self = Ok self') /\
  (pixels_zero (fst (ext ax)) = true -> flt (of_Z 0) (span (get_xlim ax)) = true ->
     sx v = py_max (of_Z 1) (fdiv (of_Z (x1 v - x0 v)) five)) /\
  (pixels_zero (snd (ext ax)) = true -> flt (of_Z 0) (span (get_ylim ax)) = true ->
     sy v = py_max (of_Z 1) (fdiv (of_Z (y1 v - y0 v)) five)) /\
  (pixels_negative (fst (ext ax)) = true -> window_ok (get_xlim ax) = true ->
     sx v = of_Z 1) /\
  (pixels_negative (snd (ext ax)) = true -> window_ok (get_ylim ax) = true ->
     sy v = of_Z 1).
Proof.
  intro Hv.
  assert (Hret : forall ax' v' self,
            ideal_view ax' full = Ok v' -> _full_res self = Some full ->
            exists self', _scale_to_res ax' self = Ok self').
  { intros ax' v' self Hv' Hfull. unfold _scale_to_res.
    rewrite Hfull, Hv'. cbn [bind].
    destruct (cache_hit v' self); [eauto|].
    destruct (resample_ok ax' full v' self Hv')
      as (ky & kx & A & _ & _ & _ & _ & _ & H).
    eauto. }
  split; [|split].
  - intros self Hfull. exact (Hret ax v self Hv Hfull).
  - intros e self Hfull.
    exact (Hret _ _ self (ideal_view_set_ext ax full v e Hv) Hfull).
  - apply ideal_view_inv in Hv as (_ & _ & _ & _ & -> & ->).
    repeat split; intros H1 H2.
    + apply stride_zero_pixels; assumption.
    + apply stride_zero_pixels; assumption.
    + apply stride_negative_pixels; assumption.
    + apply stride_negative_pixels; assumption.
Qed.

End Unguarded.

(** ** The cached upper bounds *)

Section UpperBounds.

Context {V : Type}.
Implicit Types (full A : ndarray V) (self : ModestImage V) (v : view) (ax : Axes).

Lemma cache_hit_upper_x v self (b : Z) :
  snd (fst (fst (_bounds self))) = Some b -> b < x1 v ->
  cache_hit v self = false.
Proof.
  unfold cache_hit. destruct (_bounds self) as [[[b0 b1] b2] b3]. cbn.
  intros -> Hlt. cbn [le_cached]. destruct (Z.leb_spec (x1 v) b); [lia|].
  rewrite andb_false_r. reflexivity.
Qed.

Lemma cache_hit_upper_y v self (b : Z) :
  snd (_bounds self) = Some b -> b < y1 v ->
  cache_hit v self = false.
Proof.
  unfold cache_hit. destruct (_bounds self) as [[[b0 b1] b2] b3]. cbn.
  intros -> Hlt. cbn [le_cached]. destruct (Z.leb_spec (y1 v) b); [lia|].
  apply andb_false_r.
Qed.

(** An integer step of 2 or more means a crop span of at least 10. *)
Lemma step_two_span (n : Z) (s : Q) (k : Z) :
  (1 <= s)%Q -> (s == 1 \/ s <= inject_Z n / 5)%Q ->
  as_index (Fin s) = Ok k -> 2 <= k -> 10 <= n.
Proof.
  intros Hs1 Hs Hk Hk2.
  destruct (as_index_stride s Hs1) as (k' & Hk' & _ & Hle).
  rewrite Hk in Hk'. injection Hk' as <-.
  assert (H2 : (inject_Z 2 <= inject_Z k)%Q) by (rewrite <- Zle_Qle; exact Hk2).
  change (inject_Z 2) with 2%Q in H2.
  destruct Hs as [Hs | Hs]; [lra|].
  assert (H10 : (inject_Z 10 <= inject_Z n)%Q).
  { change (inject_Z 10) with 10%Q.
    setoid_replace (inject_Z n) with (5 * (inject_Z n / 5))%Q by field. lra. }
  rewrite <- Zle_Qle in H10. exact H10.
Qed.

(** A draw that misses the cache test returns the resampled object. *)
Lemma scale_to_res_miss ax self full v :
  _full_res self = Some full ->
  ideal_view ax full = Ok v ->
  cache_hit v self = false ->
  exists A, _scale_to_res ax self = Ok (resampled v A self).
Proof.
  intros Hfull Hv Hmiss.
  destruct (resample_ok ax full v self Hv) as (ky & kx & A & _ & _ & _ & _ & _ & H).
  exists A. unfold _scale_to_res. rewrite Hfull, Hv. cbn [bind].
  rewrite Hmiss. exact H.
Qed.

(** C9, as the code has it: after a cache miss the cached upper bounds
    are x0 plus the number of columns and y0 plus the number of rows of
    the sliced array, not multiplied by the stride.  When the integer
    step of the slice on an axis (the stride rounded down) is 2 or more,
    the cached upper bound on that axis is strictly below the requested
    one, so the same request fails the cache test again and the next
    draw recomputes and signals once more.  When the step is 1 and the
    requested crop is not empty, the cached upper bound is the requested
    one. *)
Theorem cached_upper_bounds ax self full v :
  valid_array full ->
  _full_res self = Some full ->
  ideal_view ax full = Ok v ->
  cache_hit v self = false ->
  exists self' A,
    _scale_to_res ax self = Ok self' /\
    _A self' = Some A /\
    _bounds self' = (Some (x0 v), Some (x0 v + snd (shape A)),
                     Some (y0 v), Some (y0 v + fst (shape A))) /\
    (forall k, as_index (sx v) = Ok k -> 2 <= k ->
       x0 v + snd (shape A) < x1 v /\
       cache_hit v self' = false /\
       exists self'', _scale_to_res ax self' = Ok self'' /\
                      emitted self'' = emitted self' ++ [Changed]) /\
    (forall k, as_index (sy v) = Ok k -> 2 <= k ->
       y0 v + fst (shape A) < y1 v /\
       cache_hit v self' = false /\
       exists self'', _scale_to_res ax self' = Ok self'' /\
                      emitted self'' = emitted self' ++ [Changed]) /\
    (as_index (sx v) = Ok 1 -> x0 v <= x1 v -> x0 v + snd (shape A) = x1 v) /\
    (as_index (sy v) = Ok 1 -> y0 v <= y1 v -> y0 v + fst (shape A) = y1 v).
Proof.
  intros Hvalid Hfull Hv Hmiss.
  destruct (resample_ok ax full v self Hv)
    as (ky & kx & A & Hky & Hky1 & Hkx & Hkx1 & Hget & Hres).
  exists (resampled v A self), A.
  assert (Hrun : _scale_to_res ax self = Ok (resampled v A self)).
  { unfold _scale_to_res. rewrite Hfull, Hv. cbn [bind]. rewrite Hmiss. exact Hres. }
  destruct (view_bounds _ _ _ Hvalid Hv) as (Hx0 & Hx1 & Hy0 & Hy1).
  destruct (view_strides _ _ _ Hv) as [(s & Hs & Hs1 & Hs5) (t & Ht & Ht1 & Ht5)].
  unfold getitem in Hget. cbn [step] in Hget.
  destruct (Z.eqb_spec ky 0); [lia|]. destruct (Z.eqb_spec kx 0); [lia|].
  cbn [orb] in Hget. injection Hget as HA.
  assert (Hagain : cache_hit v (resampled v A self) = false ->
            exists self'',
              _scale_to_res ax (resampled v A self) = Ok self'' /\
              emitted self'' = emitted (resampled v A self) ++ [Changed]).
  { intro Hmiss'.
    destruct (scale_to_res_miss ax (resampled v A self) full v Hfull Hv Hmiss')
      as [A' HA'].
    eexists. split; [exact HA' | reflexivity]. }
  split; [exact Hrun|]. split; [reflexivity|]. split; [reflexivity|].
  split; [|split; [|split]].
  - intros k Hk Hk2. rewrite Hkx in Hk. injection Hk as ->.
    rewrite Hs in Hkx.
    pose proof (step_two_span _ _ _ Hs1 Hs5 Hkx Hk2) as Hspan.
    assert (Hlt : x0 v + snd (shape A) < x1 v).
    { rewrite <- HA. cbn [shape snd]. apply slice_shorter; lia. }
    assert (Hmiss' : cache_hit v (resampled v A self) = false)
      by (eapply cache_hit_upper_x; [reflexivity | exact Hlt]).
    auto.
  - intros k Hk Hk2. rewrite Hky in Hk. injection Hk as ->.
    rewrite Ht in Hky.
    pose proof (step_two_span _ _ _ Ht1 Ht5 Hky Hk2) as Hspan.
    assert (Hlt : y0 v + fst (shape A) < y1 v).
    { rewrite <- HA. cbn [shape fst]. apply slice_shorter; lia. }
    assert (Hmiss' : cache_hit v (resampled v A self) = false)
      by (eapply cache_hit_upper_y; [reflexivity | exact Hlt]).
    auto.
  - intros Hk Hle. rewrite Hkx in Hk. injection Hk as ->.
    rewrite <- HA. cbn [shape snd].
    destruct Hvalid as [_ Hw]. rewrite slice_step_one by lia. lia.
  - intros Hk Hle. rewrite Hky in Hk. injection Hk as ->.
    rewrite <- HA. cbn [shape fst].
    destruct Hvalid as [Hh _]. rewrite slice_step_one by lia. lia.
Qed.

End UpperBounds.

(** * The worked inputs *)

Lemma example_ideal_view : ideal_view example_axes example_data = Ok example_view.
Proof. vm_compute. reflexivity. Qed.

(** C3 on the code: the first draw computes stride 2 on both axes and a
    1000 x 1000 subsample, but it stores the extent
    (-0.5, 999.5, -0.5, 999.5): the upper edges are x0 + 1000 - 0.5, the
    number of samples not being multiplied by the stride. *)
Theorem example_first_draw :
  ideal_view example_axes example_data = Ok example_view /\
  _scale_to_res example_axes loaded = Ok (drawn 1) /\
  option_map shape (_A (drawn 1)) = Some (1000, 1000) /\
  _extent (drawn 1) =
    Some (Fin (-1 # 2), Fin (1999 # 2), Fin (-1 # 2), Fin (1999 # 2)) /\
  fsub (of_Z 1000) half = Fin (1999 # 2) /\
  feq (Fin (1999 # 2)) (fsub (of_Z 2000) half) = false.
Proof. repeat split; vm_compute; reflexivity. Qed.

(** C2 on the code: the same request again yields the same subsample,
    but it does not pass the cache test (the requested x1 = 2000 exceeds
    the cached 1000), so the array is sliced and "changed" is emitted a
    second time. *)
Theorem example_repeat_draw :
  cache_hit example_view (drawn 1) = false /\
  _scale_to_res example_axes (drawn 1) = Ok (drawn 2) /\
  _A (drawn 2) = _A (drawn 1) /\
  emitted (drawn 1) = [Changed] /\
  emitted (drawn 2) = [Changed; Changed].
Proof. repeat split; vm_compute; reflexivity. Qed.


(** The formula at the example: the crop (0, 2000) and the stride 2. *)
Lemma spec_formula_example :
  spec_crop_lo 0 1000 = 0 /\ spec_crop_hi 2000 0 1000 = 2000 /\
  (spec_stride 0 2000 0 1000 500 == 2)%Q.
Proof. repeat split. Qed.

(** Truncation is toward zero, on both sides of it. *)
Lemma spec_formula_truncates :
  Qtrunc (7 # 2) = 3 /\ Qtrunc (- 7 # 2) = -3 /\
  spec_crop_lo (7 # 4) 2 = 1 /\ spec_crop_hi 2000 (1 # 2) (3 # 2) = 2.
Proof. repeat split. Qed.

(** C6 at the example. *)
Lemma cached_region_within_example :
  exists full bx0 bx1 by0 by1 cx cy,
    _full_res (drawn 1) = Some full /\
    _bounds (drawn 1) = (Some bx0, Some bx1, Some by0, Some by1) /\
    (forall i, bx0 <= i < bx1 -> 0 <= i < snd (shape full)) /\
    (forall j, by0 <= j < by1 -> 0 <= j < fst (shape full)) /\
    _sx (drawn 1) = Some cx /\ _sy (drawn 1) = Some cy /\
    fle (of_Z 1) cx = true /\ fle (of_Z 1) cy = true.
Proof.
  apply (cached_region_within example_axes loaded (drawn 1)).
  - apply reach_set_data.
    + split; cbn; lia.
    + apply reach_init.
  - vm_compute. reflexivity.
Defined.

(** C9 at the example: step 2 on both axes. *)
Lemma cached_upper_bounds_example :
  exists self' A,
    _scale_to_res example_axes loaded = Ok self' /\
    _A self' = Some A /\
    _bounds self' = (Some (x0 example_view), Some (x0 example_view + snd (shape A)),
                     Some (y0 example_view), Some (y0 example_view + fst (shape A))) /\
    (forall k, as_index (sx example_view) = Ok k -> 2 <= k ->
       x0 example_view + snd (shape A) < x1 example_view /\
       cache_hit example_view self' = false /\
       exists self'', _scale_to_res example_axes self' = Ok self'' /\
                      emitted self'' = emitted self' ++ [Changed]) /\
    (forall k, as_index (sy example_view) = Ok k -> 2 <= k ->
       y0 example_view + fst (shape A) < y1 example_view /\
       cache_hit example_view self' = false /\
       exists self'', _scale_to_res example_axes self' = Ok self'' /\
                      emitted self'' = emitted self' ++ [Changed]) /\
    (as_index (sx example_view) = Ok 1 -> x0 example_view <= x1 example_view ->
       x0 example_view + snd (shape A) = x1 example_view) /\
    (as_index (sy example_view) = Ok 1 -> y0 example_view <= y1 example_view ->
       y0 example_view + fst (shape A) = y1 example_view).
Proof.
  apply (cached_upper_bounds example_axes loaded example_data example_view).
  - split; cbn; lia.
  - reflexivity.
  - vm_compute. reflexivity.
  - reflexivity.
Defined.

(** C5 is not what [set_data] does: after a draw, setting a 100 x 100
    array clears the strides and leaves the bounds (0, 1000, 0, 1000) of
    the previous array in place. *)
Lemma set_data_keeps_bounds :
  _full_res (set_data small_data (drawn 1)) = Some small_data /\
  _sx (set_data small_data (drawn 1)) = None /\
  _sy (set_data small_data (drawn 1)) = None /\
  _bounds (set_data small_data (drawn 1)) = (Some 0, Some 1000, Some 0, Some 1000).
Proof. repeat split. Qed.

(** C8 is not what the code does: with a surface 0 pixels wide, after a
    first draw, [_scale_to_res] returns normally; it has divided 1000 by
    0, taken the stride 2000 / 5 = 400 on that axis, replaced the
    1000 x 1000 subsample by a 1000 x 5 one and emitted "changed". *)
Lemma zero_width_draw :
  fdiv (span (get_xlim zero_width_axes)) (fst (ext zero_width_axes)) = PInf /\
  ideal_view zero_width_axes example_data = Ok zero_width_view /\
  exists self',
    _scale_to_res zero_width_axes (drawn 1) = Ok self' /\
    option_map shape (_A (drawn 1)) = Some (1000, 1000) /\
    option_map shape (_A self') = Some (1000, 5) /\
    _sx self' = Some (Fin 400) /\
    emitted self' = [Changed; Changed].
Proof.
  split; [reflexivity|]. split; [vm_compute; reflexivity|].
  eexists. split; [vm_compute; reflexivity|].
  repeat split.
Qed.

(** With a width of -500 pixels the quotient is -2 and the stride 1. *)
Lemma negative_width_view :
  fdiv (span (get_xlim negative_width_axes)) (fst (ext negative_width_axes)) = Fin (-2) /\
  ideal_view negative_width_axes example_data =
  Ok {| x0 := 0; x1 := 2000; y0 := 0; y1 := 2000; sx := Fin 1; sy := Fin 2 |}.
Proof. split; vm_compute; reflexivity. Qed.

(** C8, as the code has it, at this input. *)
Lemma pixel_size_unguarded_example :
  (forall self, _full_res self = Some example_data ->
     exists self', _scale_to_res zero_width_axes self = Ok self') /\
  (forall e self, _full_res self = Some example_data ->
     exists self', _scale_to_res (set_ext e zero_width_axes) self = Ok self') /\
  (pixels_zero (fst (ext zero_width_axes)) = true ->
   flt (of_Z 0) (span (get_xlim zero_width_axes)) = true ->
     sx zero_width_view =
     py_max (of_Z 1) (fdiv (of_Z (x1 zero_width_view - x0 zero_width_view)) five)) /\
  (pixels_zero (snd (ext zero_width_axes)) = true ->
   flt (of_Z 0) (span (get_ylim zero_width_axes)) = true ->
     sy zero_width_view =
     py_max (of_Z 1) (fdiv (of_Z (y1 zero_width_view - y0 zero_width_view)) five)) /\
  (pixels_negative (fst (ext zero_width_axes)) = true ->
   window_ok (get_xlim zero_width_axes) = true ->
     sx zero_width_view = of_Z 1) /\
  (pixels_negative (snd (ext zero_width_axes)) = true ->
   window_ok (get_ylim zero_width_axes) = true ->
     sy zero_width_view = of_Z 1).
Proof.
  apply (pixel_size_unguarded zero_width_axes example_data zero_width_view).
  vm_compute. reflexivity.
Defined.

(** C9 does not hold for every stride above 1: with the stride 1.5 the
    slice takes every sample, the cached x1 = 1500 is the requested x1,
    and the same request passes the cache test. *)
Lemma fractional_stride_hits :
  ideal_view fractional_axes example_data = Ok fractional_view /\
  flt (of_Z 1) (sx fractional_view) = true /\
  flt (sx fractional_view) (of_Z (x1 fractional_view - x0 fractional_view)) = true /\
  as_index (sx fractional_view) = Ok 1 /\
  _scale_to_res fractional_axes loaded = Ok fractional_drawn /\
  _bounds fractional_drawn = (Some 0, Some (x1 fractional_view), Some 0, Some 1500) /\
  cache_hit fractional_view fractional_drawn = true /\
  _scale_to_res fractional_axes fractional_drawn = Ok fractional_drawn.
Proof. repeat split; vm_compute; reflexivity. Qed.

(** C4 at this input. *)
Lemma cache_hit_frame_example :
  _scale_to_res panned_axes fractional_drawn = Ok fractional_drawn.
Proof.
  apply (cache_hit_frame panned_axes fractional_drawn example_data panned_view
           (Fin (3 # 2)) (Fin (3 # 2)) 0 1500 0 1500).
  - reflexivity.
  - vm_compute. reflexivity.
  - reflexivity.
  - reflexivity.
  - reflexivity.
  - reflexivity.
  - reflexivity.
  - cbn. lia.
  - cbn. lia.
  - cbn. lia.
  - cbn. lia.
Defined.

(** * Further properties *)

(** ** More on slices *)

Lemma slice_in_range (n a b k : Z) :
  0 <= a -> a < b -> b <= n -> 1 <= k ->
  slice_start n {| start := a; stop := b; step := k |} = a /\
  slice_length n {| start := a; stop := b; step := k |} = (b - a - 1) / k + 1.
Proof.
  intros Ha Hab Hb Hk.
  unfold slice_length, slice_start, slice_stop, adjust. cbn.
  zcase; try lia. split; [reflexivity|]. replace n with b by lia. reflexivity.
Qed.

Lemma slice_covers (n a b k : Z) :
  0 <= a -> b <= n -> 1 <= k ->
  forall i, a <= i < b ->
    i < a + slice_length n {| start := a; stop := b; step := k |} * k.
Proof.
  intros Ha Hb Hk i Hi.
  destruct (slice_in_range n a b k) as [_ ->]; try lia.
  pose proof (Z.mul_succ_div_gt (b - a - 1) k). nia.
Qed.

Lemma slice_empty (n a b k : Z) :
  0 <= n -> 0 <= b -> b <= a -> 1 <= k ->
  slice_length n {| start := a; stop := b; step := k |} = 0.
Proof.
  intros Hn Hb Hba Hk.
  unfold slice_length, slice_start, slice_stop, adjust. cbn.
  zcase; lia.
Qed.

Lemma slice_nonempty_start (n a b k : Z) :
  0 <= n -> 0 <= a -> 1 <= k ->
  0 < slice_length n {| start := a; stop := b; step := k |} ->
  slice_start n {| start := a; stop := b; step := k |} = a.
Proof.
  intros Hn Ha Hk.
  unfold slice_length, slice_start, slice_stop, adjust. cbn.
  zcase; lia.
Qed.

Section Displayed.

Context {V : Type}.
Implicit Types (full A : ndarray V) (self : ModestImage V) (v : view) (ax : Axes).

Lemma resampled_displayed ax full v self :
  valid_array full ->
  _full_res self = Some full ->
  ideal_view ax full = Ok v ->
  exists A, resample v full self = Ok (resampled v A self) /\
            displayed_ok (resampled v A self).
Proof.
  intros Hvalid Hfull Hv.
  destruct (resample_ok ax full v self Hv)
    as (ky & kx & A & Hky & Hky1 & Hkx & Hkx1 & Hget & Hres).
  destruct (view_bounds _ _ _ Hvalid Hv) as (Hx0 & _ & Hy0 & _).
  exists A. split; [exact Hres|].
  exists full, A, (x0 v), (y0 v), (x1 v), (y1 v), kx, ky, (sx v), (sy v).
  cbn [resampled _full_res _sx _sy _A _bounds _extent].
  repeat split; assumption.
Qed.

Lemma display_inv_draw ax self self' :
  display_inv self -> _scale_to_res ax self = Ok self' ->
  display_inv self' /\ displayed_ok self'.
Proof.
  intros [Hvalid Hd] H.
  apply scale_to_res_inv in H
    as (full & v & Hfull & Hv & [[Hhit ->] | [Hmiss Hres]]).
  - apply cache_hit_cached in Hhit.
    destruct Hd as [Hd | Hd]; [contradiction|].
    split; [split; [exact Hvalid | right; exact Hd] | exact Hd].
  - destruct (resampled_displayed ax full v self (Hvalid full Hfull) Hfull Hv)
      as (A & Hres' & Hok).
    rewrite Hres' in Hres. injection Hres as <-.
    split; [split; [exact Hvalid | right; exact Hok] | exact Hok].
Qed.

Lemma reachable_display_inv self : reachable self -> display_inv self.
Proof.
  induction 1 as [ | A self HA _ _ | ax self self' _ IH Hdraw].
  - split; [discriminate | left; reflexivity].
  - split.
    + cbn. intros full E. injection E as <-. exact HA.
    + left. reflexivity.
  - apply (display_inv_draw ax self self' IH Hdraw).
Qed.

(** After every draw that returns, what is displayed is a subsample
    of the array set last. *)
Theorem draw_displays_current_data ax self self' :
  reachable self ->
  _scale_to_res ax self = Ok self' ->
  displayed_ok self'.
Proof.
  intros Hreach Hdraw.
  exact (proj2 (display_inv_draw ax self self' (reachable_display_inv self Hreach) Hdraw)).
Qed.

(** After every draw that returns, every sample of the requested crop
    is represented in the displayed subsample.  With (bx0, by0) the
    cached lower bounds and kx, ky the integer parts of the cached
    strides, a position (j, i) of the requested crop falls in the block
    [by0 + r ky, by0 + (r + 1) ky) x [bx0 + c kx, bx0 + (c + 1) kx) of a
    displayed item (r, c), and that item is the first sample of the
    block. *)
Theorem displayed_covers_request ax self self' full v :
  reachable self ->
  _full_res self = Some full ->
  ideal_view ax full = Ok v ->
  _scale_to_res ax self = Ok self' ->
  exists A (bx0 bx1 by0 by1 kx ky : Z) (cx cy : pyfloat),
    _A self' = Some A /\
    _bounds self' = (Some bx0, Some bx1, Some by0, Some by1) /\
    _sx self' = Some cx /\ _sy self' = Some cy /\
    as_index cx = Ok kx /\ as_index cy = Ok ky /\
    forall i j, x0 v <= i < x1 v -> y0 v <= j < y1 v ->
      exists r c,
        0 <= r < fst (shape A) /\ 0 <= c < snd (shape A) /\
        by0 + r * ky <= j < by0 + (r + 1) * ky /\
        bx0 + c * kx <= i < bx0 + (c + 1) * kx /\
        item A r c = item full (by0 + r * ky) (bx0 + c * kx).
Proof.
  intros Hreach Hfull Hv Hdraw.
  pose proof (reachable_display_inv self Hreach) as [Hvalid Hd].
  specialize (Hvalid full Hfull).
  destruct (view_bounds _ _ _ Hvalid Hv) as (Hx0 & Hx1 & Hy0 & Hy1).
  assert (Hcov : exists A (bx0 by0 px py kx ky : Z) (cx cy : pyfloat),
            _A self' = Some A /\
            _bounds self' = (Some bx0, Some (bx0 + snd (shape A)),
                             Some by0, Some (by0 + fst (shape A))) /\
            _sx self' = Some cx /\ _sy self' = Some cy /\
            as_index cx = Ok kx /\ as_index cy = Ok ky /\
            1 <= kx /\ 1 <= ky /\ 0 <= bx0 /\ 0 <= by0 /\
            getitem full {| start := by0; stop := py; step := ky |}
                         {| start := bx0; stop := px; step := kx |} = Ok A /\
            (forall i, x0 v <= i < x1 v -> bx0 <= i < bx0 + snd (shape A) * kx) /\
            (forall j, y0 v <= j < y1 v -> by0 <= j < by0 + fst (shape A) * ky)).
  { apply scale_to_res_inv in Hdraw
      as (full' & v' & Hfull' & Hv' & [[Hhit ->] | [Hmiss Hres]]);
      rewrite Hfull in Hfull'; injection Hfull' as <-;
      rewrite Hv in Hv'; injection Hv' as <-.
    - pose proof (cache_hit_cached _ _ Hhit) as Hsome.
      destruct Hd as [Hd | Hd]; [contradiction|].
      destruct Hd as (full' & A & bx0 & by0 & px & py & kx & ky & cx & cy &
                      Hf & Hsx & Hsy & Hkx & Hky & Hkx1 & Hky1 & Hb0 & Hb1 &
                      Hget & HA & Hb & _).
      rewrite Hfull in Hf. injection Hf as <-.
      exists A, bx0, by0, px, py, kx, ky, cx, cy.
      unfold cache_hit in Hhit. rewrite Hb in Hhit.
      cbn [ge_cached le_cached] in Hhit.
      repeat (apply andb_prop in Hhit as [Hhit ?]).
      repeat match goal with
      | H : (_ <=? _) = true |- _ => apply Z.leb_le in H
      end.
      assert (Hs : 0 <= snd (shape A) /\ 0 <= fst (shape A)).
      { unfold getitem in Hget. cbn [step] in Hget.
        destruct (Z.eqb_spec ky 0); [lia|]. destruct (Z.eqb_spec kx 0); [lia|].
        cbn [orb] in Hget. injection Hget as <-. cbn [shape fst snd].
        split; apply slice_length_nonneg; cbn; lia. }
      repeat split; try assumption; try lia; nia.
    - destruct (resample_ok ax full v self Hv)
        as (ky & kx & A & Hky & Hky1 & Hkx & Hkx1 & Hget & Hres').
      rewrite Hres' in Hres. injection Hres as <-.
      exists A, (x0 v), (y0 v), (x1 v), (y1 v), kx, ky, (sx v), (sy v).
      assert (Hshape : shape A =
                (slice_length (fst (shape full)) {| start := y0 v; stop := y1 v; step := ky |},
                 slice_length (snd (shape full)) {| start := x0 v; stop := x1 v; step := kx |})).
      { unfold getitem in Hget. cbn [step] in Hget.
        destruct (Z.eqb_spec ky 0); [lia|]. destruct (Z.eqb_spec kx 0); [lia|].
        cbn [orb] in Hget. injection Hget as <-. reflexivity. }
      cbn [resampled _A _bounds _sx _sy].
      repeat split; try assumption; try reflexivity; try lia;
        rewrite Hshape; cbn [fst snd]; apply slice_covers; lia. }
  destruct Hcov as (A & bx0 & by0 & px & py & kx & ky & cx & cy & HA & Hb & Hsx & Hsy &
                    Hax & Hay & Hkx & Hky & Hb0 & Hb1 & Hget & Hcx & Hcy).
  exists A, bx0, (bx0 + snd (shape A)), by0, (by0 + fst (shape A)), kx, ky, cx, cy.
  split; [exact HA|]. split; [exact Hb|].
  split; [exact Hsx|]. split; [exact Hsy|].
  split; [exact Hax|]. split; [exact Hay|].
  intros i j Hi Hj.
  specialize (Hcx i Hi). specialize (Hcy j Hj).
  exists ((j - by0) / ky), ((i - bx0) / kx).
  pose proof (Z.div_pos (j - by0) ky) as Hr0.
  pose proof (Z.div_pos (i - bx0) kx) as Hc0.
  pose proof (Z.mul_div_le (j - by0) ky) as Hr1.
  pose proof (Z.mul_div_le (i - bx0) kx) as Hc1.
  pose proof (Z.mul_succ_div_gt (j - by0) ky) as Hr2.
  pose proof (Z.mul_succ_div_gt (i - bx0) kx) as Hc2.
  assert (Hr3 : (j - by0) / ky < fst (shape A))
    by (apply Z.div_lt_upper_bound; lia).
  assert (Hc3 : (i - bx0) / kx < snd (shape A))
    by (apply Z.div_lt_upper_bound; lia).
  split; [lia|]. split; [lia|]. split; [nia|]. split; [nia|].
  unfold getitem in Hget. cbn [step] in Hget.
  destruct (Z.eqb_spec ky 0); [lia|]. destruct (Z.eqb_spec kx 0); [lia|].
  cbn [orb] in Hget. injection Hget as <-. cbn [item shape fst snd] in *.
  destruct Hvalid as [Hh Hw].
  rewrite (slice_nonempty_start (fst (shape full)) by0 py ky) by lia.
  rewrite (slice_nonempty_start (snd (shape full)) bx0 px kx) by lia.
  reflexivity.
Qed.

End Displayed.

Section Repeat.

Context {V : Type}.
Implicit Types (full A : ndarray V) (self : ModestImage V) (v : view) (ax : Axes).

Lemma resample_same_display v full self1 self2 s1 s2 :
  _full_res self1 = _full_res self2 ->
  resample v full self1 = Ok s1 -> resample v full self2 = Ok s2 ->
  same_display s1 s2.
Proof.
  unfold resample. intros Hf.
  destruct (as_index (sy v)) as [ky|]; [|discriminate].
  destruct (as_index (sx v)) as [kx|]; [|discriminate]. cbn [bind].
  destruct (getitem full _ _) as [A|]; [|discriminate]. cbn [bind].
  intros H1 H2. injection H1 as <-. injection H2 as <-.
  unfold same_display. cbn. rewrite Hf. repeat split.
Qed.

Lemma resample_full_res v full self s :
  resample v full self = Ok s -> _full_res s = _full_res self.
Proof.
  unfold resample.
  destruct (as_index (sy v)) as [ky|]; [|discriminate].
  destruct (as_index (sx v)) as [kx|]; [|discriminate]. cbn [bind].
  destruct (getitem full _ _) as [A|]; [|discriminate]. cbn [bind].
  intro H. injection H as <-. reflexivity.
Qed.

(** A draw repeated with the same axes returns and displays the same
    thing: array, extent, strides and bounds are those of the first
    draw (only the "changed" signal may be emitted again). *)
Theorem repeated_draw_same_display ax self self' :
  _scale_to_res ax self = Ok self' ->
  exists self'', _scale_to_res ax self' = Ok self'' /\ same_display self'' self'.
Proof.
  intro H. pose proof H as H0.
  apply scale_to_res_inv in H
    as (full & v & Hfull & Hv & [[Hhit ->] | [Hmiss Hres]]).
  - exists self. split; [exact H0|]. unfold same_display. repeat split.
  - pose proof (resample_full_res _ _ _ _ Hres) as Hf'.
    destruct (cache_hit v self') eqn:Hhit'.
    + exists self'. split; [|unfold same_display; repeat split].
      unfold _scale_to_res. rewrite Hf', Hfull, Hv. cbn [bind].
      rewrite Hhit'. reflexivity.
    + destruct (resample_ok ax full v self' Hv)
        as (ky & kx & A & _ & _ & _ & _ & _ & Hres').
      exists (resampled v A self'). split.
      * unfold _scale_to_res. rewrite Hf', Hfull, Hv. cbn [bind].
        rewrite Hhit'. exact Hres'.
      * apply (resample_same_display v full self' self); [exact Hf' | exact Hres' | exact Hres].
Qed.

(** What a draw displays after [set_data] does not depend on the
    object's past: whatever was cached, two objects given the same array
    display the same thing, or raise the same exception. *)
Theorem display_after_set_data ax A self1 self2 :
  match _scale_to_res ax (set_data A self1), _scale_to_res ax (set_data A self2) with
  | Ok s1, Ok s2 => same_display s1 s2
  | Raise e1, Raise e2 => e1 = e2
  | _, _ => False
  end.
Proof.
  rewrite !scale_after_set_data.
  destruct (ideal_view ax A) as [v|e] eqn:Hv; cbn [bind]; [|reflexivity].
  destruct (resample_ok ax A v (set_data A self1) Hv)
    as (ky & kx & A1 & _ & _ & _ & _ & _ & H1).
  destruct (resample_ok ax A v (set_data A self2) Hv)
    as (ky' & kx' & A2 & _ & _ & _ & _ & _ & H2).
  rewrite H1, H2.
  apply (resample_same_display v A (set_data A self1) (set_data A self2));
    [reflexivity | exact H1 | exact H2].
Qed.

Lemma feq_refl_fin (s : Q) : feq (Fin s) (Fin s) = true.
Proof. cbn. apply Qeq_bool_iff. reflexivity. Qed.

(** With integer steps of 1 on both axes (strides below 2) and a
    crop that is not empty, the cache works: the same request again is a
    cache hit and returns the object unchanged. *)
Theorem unit_step_repeat_hits ax self full v :
  valid_array full ->
  _full_res self = Some full ->
  ideal_view ax full = Ok v ->
  as_index (sx v) = Ok 1 -> as_index (sy v) = Ok 1 ->
  x0 v <= x1 v -> y0 v <= y1 v ->
  exists self', _scale_to_res ax self = Ok self' /\
                _scale_to_res ax self' = Ok self'.
Proof.
  intros Hvalid Hfull Hv Hkx Hky Hx Hy.
  destruct (cache_hit v self) eqn:Hhit.
  - exists self.
    assert (H : _scale_to_res ax self = Ok self).
    { unfold _scale_to_res. rewrite Hfull, Hv. cbn [bind]. rewrite Hhit. reflexivity. }
    split; exact H.
  - destruct (resample_ok ax full v self Hv)
      as (ky & kx & A & Hky' & _ & Hkx' & _ & Hget & Hres).
    rewrite Hkx in Hkx'. injection Hkx' as <-.
    rewrite Hky in Hky'. injection Hky' as <-.
    destruct (view_bounds _ _ _ Hvalid Hv) as (Hx0 & Hx1 & Hy0 & Hy1).
    destruct (view_strides _ _ _ Hv) as [(s & Hs & _) (t & Ht & _)].
    unfold getitem in Hget. cbn [step Z.eqb orb] in Hget. injection Hget as HA.
    exists (resampled v A self). split.
    + unfold _scale_to_res. rewrite Hfull, Hv. cbn [bind]. rewrite Hhit. exact Hres.
    + unfold _scale_to_res. cbn [resampled _full_res]. rewrite Hfull, Hv. cbn [bind].
      assert (Hhit' : cache_hit v (resampled v A self) = true).
      { unfold cache_hit. cbn [resampled _bounds _sx _sy eq_cached ge_cached le_cached].
        rewrite Hs, Ht, !feq_refl_fin. rewrite <- HA. cbn [shape fst snd].
        destruct Hvalid as [Hh Hw].
        rewrite !slice_step_one by lia.
        cbn [andb].
        repeat match goal with
        | |- context [?a <=? ?b] => destruct (Z.leb_spec a b); [|lia]
        end.
        reflexivity. }
      rewrite Hhit'. reflexivity.
Qed.

End Repeat.

(** ** Exceptions of a draw *)

Lemma padded_lo_cases (lim : pyfloat * pyfloat) :
  padded_lo lim = PInf \/ exists q, padded_lo lim = Fin q /\ (0 <= q)%Q.
Proof.
  unfold padded_lo, py_max.
  destruct (fsub (fst lim) (span lim)) as [ | | | q]; cbn [flt of_Z].
  - right. exists (inject_Z 0). split; [reflexivity | apply Qle_refl].
  - right. exists (inject_Z 0). split; [reflexivity | apply Qle_refl].
  - left. reflexivity.
  - right. destruct (Qltb (inject_Z 0) q) eqn:E.
    + exists q. split; [reflexivity|]. qprop.
      change (inject_Z 0) with 0%Q in E. lra.
    + exists (inject_Z 0). split; [reflexivity | apply Qle_refl].
Qed.

Lemma padded_hi_cases (n : Z) (lim : pyfloat * pyfloat) :
  padded_hi n lim = NInf \/ exists q, padded_hi n lim = Fin q.
Proof.
  unfold padded_hi, py_min.
  destruct (fadd (snd lim) (span lim)) as [ | | | q]; unfold of_Z; cbn [flt].
  - right. eexists. reflexivity.
  - left. reflexivity.
  - right. eexists. reflexivity.
  - right. destruct (Qltb q (inject_Z n)); eexists; reflexivity.
Qed.

Section Errors.

Context {V : Type}.
Implicit Types (full A : ndarray V) (self : ModestImage V) (v : view) (ax : Axes).

(** The view computation raises nothing but the [OverflowError] of
    [int()]. *)
Lemma ideal_view_raise_overflow ax full (e : exn) :
  ideal_view ax full = Raise e -> e = OverflowError.
Proof.
  unfold ideal_view.
  fold (span (get_xlim ax)) (span (get_ylim ax)).
  fold (padded_lo (get_xlim ax)) (padded_lo (get_ylim ax)).
  fold (padded_hi (fst (shape full)) (get_ylim ax)).
  fold (padded_hi (snd (shape full)) (get_xlim ax)).
  destruct (padded_lo_cases (get_ylim ax)) as [-> | (q1 & -> & _)];
    [cbn; intro H; injection H as <-; reflexivity|].
  destruct (padded_hi_cases (fst (shape full)) (get_ylim ax)) as [-> | (q2 & ->)];
    [cbn; intro H; injection H as <-; reflexivity|].
  destruct (padded_lo_cases (get_xlim ax)) as [-> | (q3 & -> & _)];
    [cbn; intro H; injection H as <-; reflexivity|].
  destruct (padded_hi_cases (snd (shape full)) (get_xlim ax)) as [-> | (q4 & ->)];
    [cbn; intro H; injection H as <-; reflexivity|].
  cbn. discriminate.
Qed.

(** A draw before any [set_data] raises [AttributeError].  Once an array
    is set a draw never raises [AttributeError], and no draw ever raises
    [ValueError]: a [nan] is dropped by [max(0, .)] and [min(size, .)]
    before [int()], and the slice step, the integer part of a stride
    that is at least 1, is never zero. *)
Theorem draw_exceptions ax self :
  (_full_res self = None -> _scale_to_res ax self = Raise AttributeError) /\
  (forall e : exn, _scale_to_res ax self = Raise e ->
     e <> ValueError /\ (e = AttributeError -> _full_res self = None)).
Proof.
  unfold _scale_to_res. split.
  - intros ->. reflexivity.
  - intros e. destruct (_full_res self) as [full|] eqn:Hfull.
    + intro H.
      assert (He : e = OverflowError).
      { destruct (ideal_view ax full) as [v|e'] eqn:Hv; cbn [bind] in H.
        - destruct (cache_hit v self); [discriminate|].
          destruct (resample_ok ax full v self Hv)
            as (ky & kx & A & _ & _ & _ & _ & _ & Hres).
          rewrite Hres in H. discriminate.
        - injection H as ->. exact (ideal_view_raise_overflow ax full e Hv). }
      subst e. split; discriminate.
    + intro H. injection H as <-. split; [discriminate | reflexivity].
Qed.

(** The crop bounds of an axis one of whose limits is [nan]. *)
Lemma nan_axis (lim : pyfloat * pyfloat) (n : Z) (px : pyfloat) :
  has_nan lim ->
  py_int (padded_lo lim) = Ok 0 /\
  py_int (padded_hi n lim) = Ok n /\
  stride 0 n (span lim) px = py_max (of_Z 1) (fdiv (of_Z n) five).
Proof.
  destruct lim as [a b]. unfold has_nan. cbn [fst snd]. intro Hab.
  assert (Hspan : span (a, b) = NaN).
  { unfold span. cbn [fst snd].
    destruct Hab as [-> | ->]; [destruct b | destruct a]; reflexivity. }
  unfold padded_lo, padded_hi, stride. rewrite Hspan. cbn [fst snd].
  replace (fsub a NaN) with NaN by (destruct a; reflexivity).
  replace (fadd b NaN) with NaN by (destruct b; reflexivity).
  cbn. rewrite Z.quot_1_r, Z.sub_0_r. repeat split.
Qed.

(** The crop bounds of an axis are integers when its limits are numbers
    that are not inverted, or when one of them is [nan]. *)
Lemma axis_bounds_ok (lim : pyfloat * pyfloat) (n : Z) :
  window_ok lim = true \/ has_nan lim ->
  exists lo hi : Z,
    py_int (padded_lo lim) = Ok lo /\ py_int (padded_hi n lim) = Ok hi.
Proof.
  intros [H | H].
  - destruct (window_ok_inv _ H) as (a & b & -> & _).
    unfold padded_lo, padded_hi, span, of_Z. cbn [fst snd fsub fadd].
    destruct (py_max_finite (inject_Z 0) (Qred (a - Qred (b - a)))) as [m1 ->].
    destruct (py_min_finite (inject_Z n) (Qred (b + Qred (b - a)))) as [m2 ->].
    do 2 eexists. split; reflexivity.
  - destruct (nan_axis lim n NaN H) as (H0 & H1 & _). eauto.
Qed.

(** A [nan] among the limits of an axis does not make the draw fail
    (the other axis having limits that are numbers and not inverted, or a
    [nan] too): the view is computed, the crop on the axis of the [nan]
    is the whole axis and the stride there is max(1, size / 5); with an
    array set, the draw returns. *)
Theorem nan_limit_whole_axis ax full :
  (has_nan (get_xlim ax) ->
   window_ok (get_ylim ax) = true \/ has_nan (get_ylim ax) ->
   exists v, ideal_view ax full = Ok v /\
     x0 v = 0 /\ x1 v = snd (shape full) /\
     sx v = py_max (of_Z 1) (fdiv (of_Z (snd (shape full))) five) /\
     forall self, _full_res self = Some full ->
       exists self', _scale_to_res ax self = Ok self') /\
  (has_nan (get_ylim ax) ->
   window_ok (get_xlim ax) = true \/ has_nan (get_xlim ax) ->
   exists v, ideal_view ax full = Ok v /\
     y0 v = 0 /\ y1 v = fst (shape full) /\
     sy v = py_max (of_Z 1) (fdiv (of_Z (fst (shape full))) five) /\
     forall self, _full_res self = Some full ->
       exists self', _scale_to_res ax self = Ok self').
Proof.
  assert (Hret : forall v, ideal_view ax full = Ok v ->
            forall self, _full_res self = Some full ->
              exists self', _scale_to_res ax self = Ok self').
  { intros v Hv self Hfull. unfold _scale_to_res. rewrite Hfull, Hv. cbn [bind].
    destruct (cache_hit v self); [eauto|].
    destruct (resample_ok ax full v self Hv)
      as (ky & kx & A & _ & _ & _ & _ & _ & H).
    eauto. }
  split; intros Hnan Hother.
  - destruct (nan_axis _ (snd (shape full)) (fst (ext ax)) Hnan) as (Hx0 & Hx1 & Hs).
    destruct (axis_bounds_ok _ (fst (shape full)) Hother) as (lo & hi & Hy0 & Hy1).
    pose proof (ideal_view_intro ax full lo hi 0 (snd (shape full)) Hy0 Hy1 Hx0 Hx1) as Hv.
    eexists. split; [exact Hv|]. cbn [x0 x1 sx].
    repeat split; [exact Hs | exact (Hret _ Hv)].
  - destruct (nan_axis _ (fst (shape full)) (snd (ext ax)) Hnan) as (Hy0 & Hy1 & Hs).
    destruct (axis_bounds_ok _ (snd (shape full)) Hother) as (lo & hi & Hx0 & Hx1).
    pose proof (ideal_view_intro ax full 0 (fst (shape full)) lo hi Hy0 Hy1 Hx0 Hx1) as Hv.
    eexists. split; [exact Hv|]. cbn [y0 y1 sy].
    repeat split; [exact Hs | exact (Hret _ Hv)].
Qed.

End Errors.

Section Subsample.

Context {V : Type}.
Implicit Types (full A : ndarray V) (self : ModestImage V) (v : view) (ax : Axes).

Lemma getitem_shape full (sy sx : slice) A :
  getitem full sy sx = Ok A ->
  shape A = (slice_length (fst (shape full)) sy, slice_length (snd (shape full)) sx) /\
  forall i j, item A i j =
    item full (slice_start (fst (shape full)) sy + i * step sy)
              (slice_start (snd (shape full)) sx + j * step sx).
Proof.
  unfold getitem. destruct (_ || _); [discriminate|].
  intro H. injection H as <-. split; reflexivity.
Qed.

(** A stride above 1 leaves room for five steps in the crop. *)
Lemma thinned_span (n : Z) (s : Q) (k : Z) :
  (1 <= s)%Q -> (s == 1 \/ s <= inject_Z n / 5)%Q ->
  flt (of_Z 1) (Fin s) = true ->
  as_index (Fin s) = Ok k -> 1 <= k /\ 5 * k <= n.
Proof.
  intros Hs1 Hs Hgt Hk.
  destruct (as_index_stride s Hs1) as (k' & Hk' & Hk1 & Hle).
  rewrite Hk in Hk'. injection Hk' as <-. split; [exact Hk1|].
  cbn in Hgt. qprop. change (inject_Z 1) with 1%Q in Hgt.
  destruct Hs as [Hs | Hs]; [lra|].
  assert (H : (inject_Z (5 * k) <= inject_Z n)%Q).
  { rewrite inject_Z_mult. change (inject_Z 5) with 5%Q.
    setoid_replace (inject_Z n) with (5 * (inject_Z n / 5))%Q by field. lra. }
  rewrite <- Zle_Qle in H. exact H.
Qed.

(** Whenever a recomputing draw thins an axis (stride above 1), the
    subsample keeps at least five samples along it. *)
Theorem thinned_axis_keeps_five ax self full v :
  valid_array full ->
  _full_res self = Some full ->
  ideal_view ax full = Ok v ->
  cache_hit v self = false ->
  exists self' A,
    _scale_to_res ax self = Ok self' /\ _A self' = Some A /\
    (flt (of_Z 1) (sx v) = true -> 5 <= snd (shape A)) /\
    (flt (of_Z 1) (sy v) = true -> 5 <= fst (shape A)).
Proof.
  intros Hvalid Hfull Hv Hmiss.
  destruct (resample_ok ax full v self Hv)
    as (ky & kx & A & Hky & Hky1 & Hkx & Hkx1 & Hget & Hres).
  exists (resampled v A self), A.
  split; [unfold _scale_to_res; rewrite Hfull, Hv; cbn [bind]; rewrite Hmiss; exact Hres|].
  split; [reflexivity|].
  destruct (view_bounds _ _ _ Hvalid Hv) as (Hx0 & Hx1 & Hy0 & Hy1).
  destruct (view_strides _ _ _ Hv) as [(s & Hs & Hs1 & Hs5) (t & Ht & Ht1 & Ht5)].
  apply getitem_shape in Hget as [-> _]. cbn [fst snd].
  split; intro Hgt.
  - rewrite Hs in Hgt, Hkx.
    destruct (thinned_span _ _ _ Hs1 Hs5 Hgt Hkx) as [_ H5].
    destruct (slice_in_range (snd (shape full)) (x0 v) (x1 v) kx) as [_ ->]; try lia.
    assert (4 <= (x1 v - x0 v - 1) / kx) by (apply Z.div_le_lower_bound; lia).
    lia.
  - rewrite Ht in Hgt, Hky.
    destruct (thinned_span _ _ _ Ht1 Ht5 Hgt Hky) as [_ H5].
    destruct (slice_in_range (fst (shape full)) (y0 v) (y1 v) ky) as [_ ->]; try lia.
    assert (4 <= (y1 v - y0 v - 1) / ky) by (apply Z.div_le_lower_bound; lia).
    lia.
Qed.

(** The stride is 1 when the crop is empty or reversed. *)
Lemma stride_nonpositive_span (lo hi : Z) (sp px : pyfloat) :
  hi <= lo -> stride lo hi sp px = of_Z 1.
Proof.
  intro H. unfold stride. rewrite fdiv_five.
  assert (Hc : (Qred (inject_Z (hi - lo) / 5) <= 0)%Q).
  { rewrite Qred_correct.
    assert (Hz : (inject_Z (hi - lo) <= inject_Z 0)%Q) by (rewrite <- Zle_Qle; lia).
    change (inject_Z 0) with 0%Q in Hz.
    setoid_replace (inject_Z (hi - lo) / 5)%Q with (inject_Z (hi - lo) * (1 # 5))%Q
      by (unfold Qdiv; reflexivity).
    lra. }
  destruct (py_min_fin (Qred (inject_Z (hi - lo) / 5)) (fdiv sp px)) as [-> | (m & -> & Hm)].
  - reflexivity.
  - apply py_max_one_nonpos. lra.
Qed.

(** A view window wholly beyond the far end of an axis (the crop's
    upper bound, not negative, does not exceed its lower bound) gives a
    subsample with no sample along that axis and the stride 1; the cached
    upper bound collapses to the lower one. *)
Theorem window_beyond_array_empty ax self full v :
  valid_array full ->
  _full_res self = Some full ->
  ideal_view ax full = Ok v ->
  cache_hit v self = false ->
  exists self' A,
    _scale_to_res ax self = Ok self' /\ _A self' = Some A /\
    (0 <= x1 v <= x0 v ->
       snd (shape A) = 0 /\ sx v = of_Z 1 /\
       snd (fst (fst (_bounds self'))) = Some (x0 v)) /\
    (0 <= y1 v <= y0 v ->
       fst (shape A) = 0 /\ sy v = of_Z 1 /\
       snd (_bounds self') = Some (y0 v)).
Proof.
  intros Hvalid Hfull Hv Hmiss.
  destruct (resample_ok ax full v self Hv)
    as (ky & kx & A & Hky & Hky1 & Hkx & Hkx1 & Hget & Hres).
  exists (resampled v A self), A.
  split; [unfold _scale_to_res; rewrite Hfull, Hv; cbn [bind]; rewrite Hmiss; exact Hres|].
  split; [reflexivity|].
  apply getitem_shape in Hget as [HA _].
  destruct Hvalid as [Hh Hw].
  apply ideal_view_inv in Hv as (_ & _ & _ & _ & Hsy & Hsx).
  split; intro Hx.
  - assert (Hcols : snd (shape A) = 0)
      by (rewrite HA; cbn [snd]; apply slice_empty; lia).
    split; [exact Hcols|]. split.
    + rewrite Hsx. apply stride_nonpositive_span. lia.
    + cbn [resampled _bounds fst snd]. rewrite Hcols, Z.add_0_r. reflexivity.
  - assert (Hrows : fst (shape A) = 0)
      by (rewrite HA; cbn [fst]; apply slice_empty; lia).
    split; [exact Hrows|]. split.
    + rewrite Hsy. apply stride_nonpositive_span. lia.
    + cbn [resampled _bounds fst snd]. rewrite Hrows, Z.add_0_r. reflexivity.
Qed.

(** A negative stop counts from the end of the axis. *)
Lemma slice_negative_stop (n a b : Z) :
  0 <= n -> 0 <= a -> b < 0 ->
  slice_length n {| start := a; stop := b; step := 1 |} = Z.max 0 (n + b - a).
Proof.
  intros Hn Ha Hb.
  unfold slice_length, slice_start, slice_stop, adjust. cbn.
  rewrite !Z.div_1_r. zcase; lia.
Qed.

(** A negative upper crop bound (a view window wholly before the start
    of an axis) is used as a negative slice index and counts from the
    end of the axis: the stride is 1, the subsample holds
    max(0, size + x1 - x0) samples along the axis, and the cached upper
    bound is max(x0, size + x1), not the requested x1. *)
Theorem window_before_array_wraps ax self full v :
  valid_array full ->
  _full_res self = Some full ->
  ideal_view ax full = Ok v ->
  cache_hit v self = false ->
  exists self' A,
    _scale_to_res ax self = Ok self' /\ _A self' = Some A /\
    (x1 v < 0 ->
       sx v = of_Z 1 /\
       snd (shape A) = Z.max 0 (snd (shape full) + x1 v - x0 v) /\
       snd (fst (fst (_bounds self'))) =
         Some (Z.max (x0 v) (snd (shape full) + x1 v))) /\
    (y1 v < 0 ->
       sy v = of_Z 1 /\
       fst (shape A) = Z.max 0 (fst (shape full) + y1 v - y0 v) /\
       snd (_bounds self') =
         Some (Z.max (y0 v) (fst (shape full) + y1 v))).
Proof.
  intros Hvalid Hfull Hv Hmiss.
  destruct (resample_ok ax full v self Hv)
    as (ky & kx & A & Hky & Hky1 & Hkx & Hkx1 & Hget & Hres).
  exists (resampled v A self), A.
  split; [unfold _scale_to_res; rewrite Hfull, Hv; cbn [bind]; rewrite Hmiss; exact Hres|].
  split; [reflexivity|].
  apply getitem_shape in Hget as [HA _].
  destruct (view_bounds _ _ _ Hvalid Hv) as (Hx0 & _ & Hy0 & _).
  destruct Hvalid as [Hh Hw].
  apply ideal_view_inv in Hv as (_ & _ & _ & _ & Hsy & Hsx).
  split; intros Hneg.
  - assert (Hs : sx v = of_Z 1)
      by (rewrite Hsx; apply stride_nonpositive_span; lia).
    rewrite Hs in Hkx. cbn in Hkx. injection Hkx as <-.
    assert (Hcols : snd (shape A) = Z.max 0 (snd (shape full) + x1 v - x0 v)).
    { rewrite HA. cbn [snd]. apply slice_negative_stop; lia. }
    split; [exact Hs|]. split; [exact Hcols|].
    cbn [resampled _bounds fst snd]. rewrite Hcols. f_equal. lia.
  - assert (Hs : sy v = of_Z 1)
      by (rewrite Hsy; apply stride_nonpositive_span; lia).
    rewrite Hs in Hky. cbn in Hky. injection Hky as <-.
    assert (Hrows : fst (shape A) = Z.max 0 (fst (shape full) + y1 v - y0 v)).
    { rewrite HA. cbn [fst]. apply slice_negative_stop; lia. }
    split; [exact Hs|]. split; [exact Hrows|].
    cbn [resampled _bounds fst snd]. rewrite Hrows. f_equal. lia.
Qed.

Lemma py_max_one_le (m : Q) : (m <= 1)%Q -> py_max (of_Z 1) (Fin m) = of_Z 1.
Proof.
  intro H. unfold py_max, of_Z. cbn [flt].
  destruct (Qltb (inject_Z 1) m) eqn:E; [|reflexivity].
  qprop. change (inject_Z 1) with 1%Q in E. lra.
Qed.

(** The stride is 1 when the surface has at least a pixel per sample. *)
Lemma stride_resolved (lo hi : Z) (sp px : pyfloat) :
  fle (fdiv sp px) (of_Z 1) = true -> stride lo hi sp px = of_Z 1.
Proof.
  intro H. unfold stride. rewrite fdiv_five.
  destruct (fdiv sp px) as [ | | | q]; try discriminate.
  - reflexivity.
  - assert (Hq : (q <= 1)%Q).
    { unfold fle, of_Z in H. cbn [flt feq] in H.
      change (inject_Z 1) with 1%Q in H.
      destruct (Qltb q 1) eqn:E1; [qprop; lra|].
      destruct (Qeq_bool q 1) eqn:E2; [qprop; lra | discriminate]. }
    unfold py_min. cbn [flt]. destruct (Qltb q _) eqn:E.
    + apply py_max_one_le. exact Hq.
    + apply py_max_one_le. qprop. lra.
Qed.

Lemma slice_start_in_range (n a b k : Z) :
  0 <= a -> a <= n -> 1 <= k ->
  slice_start n {| start := a; stop := b; step := k |} = a.
Proof.
  intros Ha Han Hk. unfold slice_start, adjust. cbn. zcase; lia.
Qed.

(** When the surface has at least one pixel per sample on both axes
    (span / pixels <= 1) and the crop is not reversed, a recomputing
    draw displays the crop at full resolution: the subsample is
    full[y0:y1, x0:x1], the cached bounds are the crop and the extent is
    (x0 - 0.5, x1 - 0.5, y0 - 0.5, y1 - 0.5). *)
Theorem resolved_view_full_resolution ax self full v :
  valid_array full ->
  _full_res self = Some full ->
  ideal_view ax full = Ok v ->
  cache_hit v self = false ->
  fle (fdiv (span (get_xlim ax)) (fst (ext ax))) (of_Z 1) = true ->
  fle (fdiv (span (get_ylim ax)) (snd (ext ax))) (of_Z 1) = true ->
  x0 v <= x1 v -> y0 v <= y1 v ->
  exists self' A,
    _scale_to_res ax self = Ok self' /\ _A self' = Some A /\
    shape A = (y1 v - y0 v, x1 v - x0 v) /\
    (forall i j, item A i j = item full (y0 v + i) (x0 v + j)) /\
    _bounds self' = (Some (x0 v), Some (x1 v), Some (y0 v), Some (y1 v)) /\
    _extent self' = Some (fsub (of_Z (x0 v)) half, fsub (of_Z (x1 v)) half,
                          fsub (of_Z (y0 v)) half, fsub (of_Z (y1 v)) half).
Proof.
  intros Hvalid Hfull Hv Hmiss Hqx Hqy Hx Hy.
  destruct (resample_ok ax full v self Hv)
    as (ky & kx & A & Hky & Hky1 & Hkx & Hkx1 & Hget & Hres).
  exists (resampled v A self), A.
  split; [unfold _scale_to_res; rewrite Hfull, Hv; cbn [bind]; rewrite Hmiss; exact Hres|].
  split; [reflexivity|].
  destruct (view_bounds _ _ _ Hvalid Hv) as (Hx0 & Hx1 & Hy0 & Hy1).
  apply ideal_view_inv in Hv as (_ & _ & _ & _ & Hsy & Hsx).
  rewrite (stride_resolved _ _ _ _ Hqx) in Hsx.
  rewrite (stride_resolved _ _ _ _ Hqy) in Hsy.
  rewrite Hsx in Hkx. rewrite Hsy in Hky. cbn in Hkx, Hky.
  injection Hkx as <-. injection Hky as <-.
  apply getitem_shape in Hget as [HA Hitem].
  destruct Hvalid as [Hh Hw].
  rewrite !slice_step_one in HA by lia.
  split; [exact HA|]. split.
  - intros i j. rewrite Hitem. cbn [step].
    rewrite !slice_start_in_range by lia. rewrite !Z.mul_1_r. reflexivity.
  - cbn [resampled _bounds _extent]. rewrite HA. cbn [fst snd].
    replace (x0 v + (x1 v - x0 v)) with (x1 v) by lia.
    replace (y0 v + (y1 v - y0 v)) with (y1 v) by lia.
    split; reflexivity.
Qed.

End Subsample.

(** ** Panning *)

Lemma py_int_floor (q : Q) : (0 <= q)%Q -> py_int (Fin q) = Ok (Qfloor q).
Proof. intro H. cbn. rewrite quot_floor by exact H. reflexivity. Qed.

Lemma padded_hi_floor (n : Z) (a b : Q) :
  (0 <= b + (b - a))%Q -> (b + (b - a) <= inject_Z n)%Q ->
  py_int (padded_hi n (Fin a, Fin b)) = Ok (Qfloor (b + (b - a))).
Proof.
  intros H0 Hn. unfold padded_hi, span, py_min, of_Z. cbn [fst snd fsub fadd flt].
  destruct (Qltb _ _) eqn:E.
  - rewrite py_int_floor by (qred; exact H0).
    f_equal. apply Qfloor_comp. qred. reflexivity.
  - qprop. rewrite !Qred_correct in E.
    rewrite py_int_floor by lra. f_equal. apply Qfloor_comp. lra.
Qed.

Lemma padded_lo_le_hi (n : Z) (a b : Q) (lo : Z) :
  (a <= b)%Q -> (0 <= b + (b - a))%Q ->
  py_int (padded_lo (Fin a, Fin b)) = Ok lo -> lo <= Qfloor (b + (b - a)).
Proof.
  intros Hab H0. unfold padded_lo, span, py_max, of_Z. cbn [fst snd fsub flt].
  destruct (Qltb _ _) eqn:E.
  - qprop. rewrite !Qred_correct in E. change (inject_Z 0) with 0%Q in E.
    rewrite py_int_floor by (qred; lra).
    intro H. injection H as <-.
    apply (Qfloor_resp_le (Qred (a - Qred (b - a))) (b + (b - a))). qred. lra.
  - rewrite py_int_floor by apply Qle_refl.
    intro H. injection H as <-.
    change (0 <= Qfloor (b + (b - a))).
    apply (Qfloor_resp_le (inject_Z 0) (b + (b - a))) in H0.
    rewrite Qfloor_Z in H0. exact H0.
Qed.

Lemma floor_step (u u' : Q) : (u + 1 <= u')%Q -> Qfloor u < Qfloor u'.
Proof.
  intro H.
  assert (Hle : (inject_Z (Qfloor u + 1) <= u')%Q).
  { rewrite inject_Z_plus. pose proof (Qfloor_le u). change (inject_Z 1) with 1%Q. lra. }
  apply Qfloor_resp_le in Hle. rewrite Qfloor_Z in Hle. lia.
Qed.

Lemma slice_length_le_span (n a b k : Z) :
  0 <= a -> a <= b -> 1 <= k ->
  a + slice_length n {| start := a; stop := b; step := k |} <= b.
Proof.
  intros Ha Hab Hk.
  unfold slice_length, slice_start, slice_stop, adjust. cbn.
  zcase; try lia;
    match goal with
    | |- context [?d / k] => pose proof (div_le_self d k)
    end; lia.
Qed.

Lemma Ok_inj {A : Type} (a b : A) : Ok a = Ok b -> a = b.
Proof. intro H. injection H as ->. reflexivity. Qed.

Section Pan.

Context {V : Type}.
Implicit Types (full A : ndarray V) (self : ModestImage V) (v : view) (ax : Axes).

(** The cache test compares padded crops, so it does not absorb a
    pan: right after a draw that recomputed, moving the window toward
    the far end of the x or of the y axis by one sample or more (same
    span, the padded window still inside the array) misses the cache
    again, and the draw recomputes and signals. *)
Theorem pan_recomputes ax ax' self full v v' :
  valid_array full ->
  _full_res self = Some full ->
  ideal_view ax full = Ok v ->
  ideal_view ax' full = Ok v' ->
  cache_hit v self = false ->
  panned_up (snd (shape full)) (get_xlim ax) (get_xlim ax') \/
  panned_up (fst (shape full)) (get_ylim ax) (get_ylim ax') ->
  exists self' self'',
    _scale_to_res ax self = Ok self' /\
    cache_hit v' self' = false /\
    _scale_to_res ax' self' = Ok self'' /\
    emitted self'' = emitted self ++ [Changed; Changed].
Proof.
  intros Hvalid Hfull Hv Hv' Hmiss Hpan.
  destruct (resample_ok ax full v self Hv)
    as (ky & kx & A & Hky & Hky1 & Hkx & Hkx1 & Hget & Hres).
  exists (resampled v A self).
  assert (Hmiss' : cache_hit v' (resampled v A self) = false).
  { destruct (view_bounds _ _ _ Hvalid Hv) as (Hx0 & _ & Hy0 & _).
    apply getitem_shape in Hget as [HA _].
    pose proof (ideal_view_inv _ _ _ Hv) as (Hy0i & Hy1i & Hx0i & Hx1i & _).
    pose proof (ideal_view_inv _ _ _ Hv') as (_ & Hy1i' & _ & Hx1i' & _).
    destruct Hpan as [Hpan | Hpan];
      destruct Hpan as (a & b & a' & b' & El & El' & Hab & Hsp & Ht & H0 & Hn).
    - rewrite El in Hx0i, Hx1i. rewrite El' in Hx1i'.
      rewrite padded_hi_floor in Hx1i by lra.
      rewrite padded_hi_floor in Hx1i' by lra.
      apply Ok_inj in Hx1i. apply Ok_inj in Hx1i'.
      pose proof (padded_lo_le_hi (snd (shape full)) a b _ Hab H0 Hx0i) as Hlo.
      assert (Hlt : Qfloor (b + (b - a)) < Qfloor (b' + (b' - a')))
        by (apply floor_step; lra).
      eapply cache_hit_upper_x; [reflexivity|].
      rewrite HA. cbn [snd].
      pose proof (slice_length_le_span (snd (shape full)) (x0 v) (x1 v) kx).
      lia.
    - rewrite El in Hy0i, Hy1i. rewrite El' in Hy1i'.
      rewrite padded_hi_floor in Hy1i by lra.
      rewrite padded_hi_floor in Hy1i' by lra.
      apply Ok_inj in Hy1i. apply Ok_inj in Hy1i'.
      pose proof (padded_lo_le_hi (fst (shape full)) a b _ Hab H0 Hy0i) as Hlo.
      assert (Hlt : Qfloor (b + (b - a)) < Qfloor (b' + (b' - a')))
        by (apply floor_step; lra).
      eapply cache_hit_upper_y; [reflexivity|].
      rewrite HA. cbn [fst].
      pose proof (slice_length_le_span (fst (shape full)) (y0 v) (y1 v) ky).
      lia. }
  destruct (resample_ok ax' full v' (resampled v A self) Hv')
    as (ky' & kx' & A' & _ & _ & _ & _ & _ & Hres').
  exists (resampled v' A' (resampled v A self)).
  split; [unfold _scale_to_res; rewrite Hfull, Hv; cbn [bind]; rewrite Hmiss; exact Hres|].
  split; [exact Hmiss'|]. split.
  - unfold _scale_to_res. cbn [resampled _full_res]. rewrite Hfull, Hv'.
    cbn [bind]. rewrite Hmiss'. exact Hres'.
  - cbn [resampled emitted]. rewrite <- app_assoc. reflexivity.
Qed.

End Pan.

(** ** The further properties at the worked inputs *)

Lemma fractional_reachable : reachable fractional_drawn.
Proof.
  apply (reach_draw fractional_axes loaded).
  - apply reach_set_data; [split; cbn; lia | apply reach_init].
  - vm_compute. reflexivity.
Qed.

Lemma draw_displays_current_data_example : displayed_ok fractional_drawn.
Proof.
  apply (draw_displays_current_data fractional_axes loaded fractional_drawn).
  - apply reach_set_data; [split; cbn; lia | apply reach_init].
  - vm_compute. reflexivity.
Defined.

(** A cache hit: the window moved 100 to the left, served by the
    subsample cached for (0, 750). *)
Lemma displayed_covers_request_example :
  exists A (bx0 bx1 by0 by1 kx ky : Z) (cx cy : pyfloat),
    _A fractional_drawn = Some A /\
    _bounds fractional_drawn = (Some bx0, Some bx1, Some by0, Some by1) /\
    _sx fractional_drawn = Some cx /\ _sy fractional_drawn = Some cy /\
    as_index cx = Ok kx /\ as_index cy = Ok ky /\
    forall i j, x0 panned_view <= i < x1 panned_view ->
                y0 panned_view <= j < y1 panned_view ->
      exists r c,
        0 <= r < fst (shape A) /\ 0 <= c < snd (shape A) /\
        by0 + r * ky <= j < by0 + (r + 1) * ky /\
        bx0 + c * kx <= i < bx0 + (c + 1) * kx /\
        item A r c = item example_data (by0 + r * ky) (bx0 + c * kx).
Proof.
  apply (displayed_covers_request panned_axes fractional_drawn fractional_drawn
           example_data panned_view).
  - exact fractional_reachable.
  - reflexivity.
  - vm_compute. reflexivity.
  - vm_compute. reflexivity.
Defined.

Lemma repeated_draw_same_display_example :
  exists self'', _scale_to_res example_axes (drawn 1) = Ok self'' /\
                 same_display self'' (drawn 1).
Proof.
  apply (repeated_draw_same_display example_axes loaded (drawn 1)).
  vm_compute. reflexivity.
Defined.

Lemma unit_step_repeat_hits_example :
  exists self', _scale_to_res fractional_axes loaded = Ok self' /\
                _scale_to_res fractional_axes self' = Ok self'.
Proof.
  apply (unit_step_repeat_hits fractional_axes loaded example_data fractional_view).
  - split; cbn; lia.
  - reflexivity.
  - vm_compute. reflexivity.
  - reflexivity.
  - reflexivity.
  - cbn. lia.
  - cbn. lia.
Defined.

(** An infinite lower limit: [int()] raises on the lower crop bound;
    no array: the attribute is missing. *)
Lemma draw_raises_examples :
  _scale_to_res infinite_axes loaded = Raise OverflowError /\
  _scale_to_res example_axes (@init Z) = Raise AttributeError.
Proof. split; vm_compute; reflexivity. Qed.

Lemma nan_limit_whole_axis_example :
  exists v, ideal_view nan_axes example_data = Ok v /\
    x0 v = 0 /\ x1 v = snd (shape example_data) /\
    sx v = py_max (of_Z 1) (fdiv (of_Z (snd (shape example_data))) five) /\
    forall self, _full_res self = Some example_data ->
      exists self', _scale_to_res nan_axes self = Ok self'.
Proof.
  apply (proj1 (nan_limit_whole_axis nan_axes example_data)).
  - left. reflexivity.
  - left. reflexivity.
Defined.

Lemma thinned_axis_keeps_five_example :
  exists self' A,
    _scale_to_res example_axes loaded = Ok self' /\ _A self' = Some A /\
    (flt (of_Z 1) (sx example_view) = true -> 5 <= snd (shape A)) /\
    (flt (of_Z 1) (sy example_view) = true -> 5 <= fst (shape A)).
Proof.
  apply (thinned_axis_keeps_five example_axes loaded example_data example_view).
  - split; cbn; lia.
  - reflexivity.
  - vm_compute. reflexivity.
  - reflexivity.
Defined.

Lemma window_beyond_array_empty_example :
  exists self' A,
    _scale_to_res beyond_axes loaded = Ok self' /\ _A self' = Some A /\
    (0 <= x1 beyond_view <= x0 beyond_view ->
       snd (shape A) = 0 /\ sx beyond_view = of_Z 1 /\
       snd (fst (fst (_bounds self'))) = Some (x0 beyond_view)) /\
    (0 <= y1 beyond_view <= y0 beyond_view ->
       fst (shape A) = 0 /\ sy beyond_view = of_Z 1 /\
       snd (_bounds self') = Some (y0 beyond_view)).
Proof.
  apply (window_beyond_array_empty beyond_axes loaded example_data beyond_view).
  - split; cbn; lia.
  - reflexivity.
  - vm_compute. reflexivity.
  - reflexivity.
Defined.

Lemma window_before_array_wraps_example :
  exists self' A,
    _scale_to_res before_axes loaded = Ok self' /\ _A self' = Some A /\
    (x1 before_view < 0 ->
       sx before_view = of_Z 1 /\
       snd (shape A) =
         Z.max 0 (snd (shape example_data) + x1 before_view - x0 before_view) /\
       snd (fst (fst (_bounds self'))) =
         Some (Z.max (x0 before_view) (snd (shape example_data) + x1 before_view))) /\
    (y1 before_view < 0 ->
       sy before_view = of_Z 1 /\
       fst (shape A) =
         Z.max 0 (fst (shape example_data) + y1 before_view - y0 before_view) /\
       snd (_bounds self') =
         Some (Z.max (y0 before_view) (fst (shape example_data) + y1 before_view))).
Proof.
  apply (window_before_array_wraps before_axes loaded example_data before_view).
  - split; cbn; lia.
  - reflexivity.
  - vm_compute. reflexivity.
  - reflexivity.
Defined.

Lemma resolved_view_full_resolution_example :
  exists self' A,
    _scale_to_res resolved_axes loaded = Ok self' /\ _A self' = Some A /\
    shape A = (y1 resolved_view - y0 resolved_view, x1 resolved_view - x0 resolved_view) /\
    (forall i j, item A i j = item example_data (y0 resolved_view + i) (x0 resolved_view + j)) /\
    _bounds self' = (Some (x0 resolved_view), Some (x1 resolved_view),
                     Some (y0 resolved_view), Some (y1 resolved_view)) /\
    _extent self' = Some (fsub (of_Z (x0 resolved_view)) half,
                          fsub (of_Z (x1 resolved_view)) half,
                          fsub (of_Z (y0 resolved_view)) half,
                          fsub (of_Z (y1 resolved_view)) half).
Proof.
  apply (resolved_view_full_resolution resolved_axes loaded example_data resolved_view).
  - split; cbn; lia.
  - reflexivity.
  - vm_compute. reflexivity.
  - reflexivity.
  - reflexivity.
  - reflexivity.
  - cbn. lia.
  - cbn. lia.
Defined.

Lemma pan_recomputes_example :
  exists self' self'',
    _scale_to_res fractional_axes loaded = Ok self' /\
    cache_hit moved_view self' = false /\
    _scale_to_res moved_axes self' = Ok self'' /\
    emitted self'' = emitted loaded ++ [Changed; Changed].
Proof.
  apply (pan_recomputes fractional_axes moved_axes loaded example_data
           fractional_view moved_view).
  - split; cbn; lia.
  - reflexivity.
  - vm_compute. reflexivity.
  - vm_compute. reflexivity.
  - reflexivity.
  - left. exists 0%Q, 750%Q, 100%Q, 850%Q.
    repeat split; try reflexivity; try (unfold Qle; cbn; lia).
Defined.
